(** * Directus SDK authentication session and cross-tab mutex

    A shallow embedding of

    - the app's [useMutex] composable ([acquireMutex],
      [localStorageLock]), and
    - [sdk/src/auth/composable.ts] ([authentication] and the closures it
      returns: [refresh], [login], [logout], [getToken], [setToken],
      [setCredentials], [refreshIfExpired], [activeRefresh]).

    Time stamps and durations are millisecond counts and are modelled as
    [Z]; JavaScript [null]/[undefined] are [None].  A stretch of
    synchronous code runs at one reading of the clock. *)

From Stdlib Require Import ZArith Lia DecimalString DecimalPos DecimalZ.
From stdpp Require Import base option list strings gmap.

Local Open Scope Z_scope.

(** ** JavaScript conversions used by the sources *)

(** [String(n)] for an integral number [n]. *)
Definition jsString (z : Z) : string := NilZero.string_of_int (Z.to_int z).

(** [Number(s)] on the strings [String] produces for integers: an optional
    minus sign followed by decimal digits.  [None] stands for [NaN]; every
    comparison with [NaN] is false.  The other numerals JavaScript reads
    (fractions, exponents, hexadecimal, surrounding blanks, [Infinity]) are
    taken for [NaN]: the only writer of the lock record is
    [localStorageLock], and it writes [String(Date.now() + expiresMs)]. *)
Definition jsNumber (s : string) : option Z :=
  Z.of_int <$> NilZero.int_of_string s.

(** Truthiness of a string-or-null value: [null] and the empty string are
    falsy. *)
Definition truthy (o : option string) : bool :=
  match o with
  | None => false
  | Some s => negb (String.eqb s EmptyString)
  end.

(** [a > b] where [a] may be [NaN]. *)
Definition js_gt (a : option Z) (b : Z) : bool :=
  match a with
  | None => false
  | Some x => b <? x
  end.

(** How a promise settles: with a value, or with an error (identified by
    its message). *)
Inductive Settled (A : Type) :=
| Resolved (a : A)
| Rejected (err : string).
Arguments Resolved {A} a.
Arguments Rejected {A} err.

(** ** The cross-context mutex (use-mutex) *)

Module Mutex.

Definition timeout : Z := 50.
Definition maxRetries : nat := 10.

(** [internalKey = `directus-mutex-${key}`] *)
Definition internalKey (key : string) : string := "directus-mutex-" +:+ key.

(** What one browsing context sees: the wall clock and [localStorage],
    which is shared with the other contexts of the origin. *)
Record World := mkWorld {
  now : Z;
  localStorage : gmap string string;
}.

Definition getItem (k : string) (w : World) : option string :=
  localStorage w !! k.
Definition setItem (k v : string) (w : World) : World :=
  mkWorld (now w) (<[k := v]> (localStorage w)).
Definition removeItem (k : string) (w : World) : World :=
  mkWorld (now w) (delete k (localStorage w)).

(** Observable actions of [localStorageLock]. *)
Inductive Action :=
| AGet (k : string)
| ASet (k v : string)
| ARemove (k : string)
| ASleep (ms : Z)
| ACallback.

Record Run := mkRun {
  result : Settled unit;
  trace : list Action;
  final : World;
}.

Section UseMutex.

(** [useMutex(key, expiresMs)] *)
Variable key : string.
Variable expiresMs : Z.

(** The callback handed to [acquireMutex]: it may change the world and
    its promise resolves or rejects. *)
Variable callback : World -> Settled unit * World.

(** What happens while this context is suspended in
    [await sleep(timeout)], as a function of the retry counter: the
    clock moves and other contexts may write [localStorage]. *)
Variable sleep : nat -> World -> World.

(** The guard of the [if] in the loop body:
    [!mutex || Number(mutex) > Date.now() + expiresMs]. *)
Definition acquirable (mutex : option string) (w : World) : bool :=
  negb (truthy mutex)
  || js_gt (mutex ≫= jsNumber) (now w + expiresMs).

(** The [finally] block. *)
Definition release (hasAcquiredMutex : bool) (w : World)
  : list Action * World :=
  if hasAcquiredMutex
  then ([ARemove (internalKey key)], removeItem (internalKey key) w)
  else ([], w).

(** The [do ... while (retries < maxRetries)] loop together with the
    [finally] block.  [left] counts the iterations that may still follow
    the current one, so that [retries + 1 + left = maxRetries]. *)
Fixpoint poll (left retries : nat) (w : World) (tr : list Action) : Run :=
  let mutex := getItem (internalKey key) w in
  let tr := tr ++ [AGet (internalKey key)] in
  if acquirable mutex w then
    let v := jsString (now w + expiresMs) in
    let w1 := setItem (internalKey key) v w in
    let '(r, w2) := callback w1 in
    let '(rel, w3) := release true w2 in
    mkRun r (tr ++ [ASet (internalKey key) v; ACallback] ++ rel) w3
  else
    let w1 := sleep retries w in
    let tr := tr ++ [ASleep timeout] in
    match left with
    | S left' => poll left' (S retries) w1 tr
    | O =>
        let '(rel, w2) := release false w1 in
        mkRun (Resolved ()) (tr ++ rel) w2
    end.

Definition localStorageLock (w : World) : Run :=
  poll (Nat.pred maxRetries) 0 w [].

(** [navigator.locks.request(internalKey, callback)], supplied by the
    platform when [navigator.locks] exists. *)
Variable webLockRequest : string -> World -> Run.

Definition acquireMutex (useWebLock : bool) (w : World) : Run :=
  if useWebLock then webLockRequest (internalKey key) w
  else localStorageLock w.

(** The world this context finds at its [i]-th attempt when none of the
    earlier attempts acquired the lock. *)
Fixpoint world_at (i : nat) (w : World) : World :=
  match i with
  | O => w
  | S j => sleep j (world_at j w)
  end.

(** The guard fails at the [i]-th attempt. *)
Definition refused_at (w : World) (i : nat) : Prop :=
  let wi := world_at i w in
  acquirable (getItem (internalKey key) wi) wi = false.

(** What an attempt that does not acquire the lock does. *)
Definition idle_round : list Action :=
  [AGet (internalKey key); ASleep timeout].

End UseMutex.

(** A scenario: the holder of the [auth_refresh] lock wrote its record at
    time 900 with a lease of 100 ms and died; it is now 5000, no other
    context touches the record, and every sleep lasts exactly [timeout]. *)
Definition stale_world : World :=
  mkWorld 5000 {[ internalKey "auth_refresh" := jsString (900 + 100) ]}.

Definition ticking (retries : nat) (w : World) : World :=
  mkWorld (now w + timeout) (localStorage w).

Definition succeeding (w : World) : Settled unit * World := (Resolved (), w).

Definition no_web_lock (name : string) (w : World) : Run :=
  mkRun (Rejected "navigator.locks is undefined") [] w.

(** Counting the actions of one kind in a trace. *)
Definition is_callback (a : Action) : bool :=
  match a with ACallback => true | _ => false end.

Definition is_set (a : Action) : bool :=
  match a with ASet _ _ => true | _ => false end.

Definition is_remove (a : Action) : bool :=
  match a with ARemove _ => true | _ => false end.

Definition is_sleep (a : Action) : bool :=
  match a with ASleep _ => true | _ => false end.

Definition count (p : Action → bool) (tr : list Action) : nat :=
  length (filter (λ a, p a = true) tr).

(** A scenario: like [ticking], but the holder of the [auth_refresh] lock
    removes its record during the second sleep. *)
Definition released_in_second_sleep (retries : nat) (w : World) : World :=
  if Nat.eqb retries 1
  then mkWorld (now w + timeout)
         (delete (internalKey "auth_refresh") (localStorage w))
  else ticking retries w.

(** A callback that fails. *)
Definition failing (w : World) : Settled unit * World :=
  (Rejected "refresh failed", w).

End Mutex.

(** ** The authentication composable (sdk/src/auth/composable.ts) *)

(** The composable is a set of [async] closures over four variables and a
    store.  Each closure is cut at its [await]s: the part up to the next
    [await] is a function on the state of the session, and a function that
    is suspended at an [await] sits in a pool until an event resumes it.
    The order in which suspended functions resume is left open, which
    covers the order the JavaScript job queue picks.  Resumptions that
    only pass a value or an error on to an awaiting caller, without
    touching the session, are folded into the step before them. *)

Module Auth.

Inductive AuthenticationMode := cookie | json | session.

Definition mode_string (m : AuthenticationMode) : string :=
  match m with
  | cookie => "cookie"
  | json => "json"
  | session => "session"
  end.

Record AuthenticationData := mkData {
  access_token : option string;
  refresh_token : option string;
  expires : option Z;
  expires_at : option Z;
}.

(** [authConfig] after the defaults were merged in; [credentials] is
    [None] when the key is not in the object. *)
Record AuthenticationConfig := mkConfig {
  msRefreshBeforeExpires : Z;
  autoRefresh : bool;
  credentials : option string;
}.

Definition defaultConfigValues : AuthenticationConfig :=
  mkConfig 30000 true None.

Definition MAX_SAFE_INTEGER : Z := 2 ^ 53 - 1.

Record LoginOptions := mkOptions {
  otp : option string;
  opt_mode : option AuthenticationMode;
}.

(** A request handed to [request(url, fetchOptions, fetch)]: always a POST
    with a JSON body. *)
Record Request := mkRequest {
  path : string;
  body : list (string * string);
  req_credentials : option string;
}.

(** Messages the client sends over the socket; both have [type: "auth"]. *)
Inductive WsMessage :=
| AuthCredentials (email password : string)
| AuthRefreshToken (refresh_token : string).

(** The fields of an inbound socket message the listener looks at. *)
Record Message := mkMessage {
  type : option string;
  status : option string;
  msg_refresh_token : option string;
  error_code : option string;
}.

(** What a call of the public interface resolves to. *)
Inductive Value :=
| VToken (t : option string)
| VData (d : AuthenticationData)
| VUndefined.

(** Suspended asynchronous functions, one constructor per [await]. [c]
    labels the application's call, [p] names a refresh promise. *)
Inductive Task :=
| RefreshIfExpired_get (c : nat) (authData : option AuthenticationData)
| ActiveRefresh_await (c : nat) (awaited : option positive)
| GetToken_resume (c : nat)
| GetToken_get (c : nat) (data : option AuthenticationData)
| AwaitRefresh_get (p : positive) (authData : option AuthenticationData)
| AwaitRefresh_request (p : positive)
| Refresh_caller (c : nat) (p : positive)
| Login_request (c : nat) (email password : string)
| Login_connect (email password : string)
| Logout_get (c : nat) (authData : option AuthenticationData)
| Logout_request (c : nat).

(** The closure variables of one [authentication(...)(client)] instance
    followed by the host they live in. *)
Record State := mkState {
  refreshPromise : option positive;
  refreshTimeout : option positive;
  realtimeHandler : option positive;
  realtimeRefresh : option string;
  storage : option AuthenticationData;
  now : Z;
  fresh : positive;
  timers : list (positive * Z);
  promises : gmap positive (Settled AuthenticationData);
  requests : list Request;
  listeners : list positive;
  connected : bool;
  outbox : list WsMessage;
  tasks : list Task;
  results : list (nat * Settled Value);
}.

(** Assignments to one component of the state. *)
Definition set_refreshPromise (v : option positive) (s : State) : State :=
  mkState v (refreshTimeout s) (realtimeHandler s) (realtimeRefresh s)
    (storage s) (now s) (fresh s) (timers s) (promises s) (requests s)
    (listeners s) (connected s) (outbox s) (tasks s) (results s).
Definition set_refreshTimeout (v : option positive) (s : State) : State :=
  mkState (refreshPromise s) v (realtimeHandler s) (realtimeRefresh s)
    (storage s) (now s) (fresh s) (timers s) (promises s) (requests s)
    (listeners s) (connected s) (outbox s) (tasks s) (results s).
Definition set_realtimeHandler (v : option positive) (s : State) : State :=
  mkState (refreshPromise s) (refreshTimeout s) v (realtimeRefresh s)
    (storage s) (now s) (fresh s) (timers s) (promises s) (requests s)
    (listeners s) (connected s) (outbox s) (tasks s) (results s).
Definition set_realtimeRefresh (v : option string) (s : State) : State :=
  mkState (refreshPromise s) (refreshTimeout s) (realtimeHandler s) v
    (storage s) (now s) (fresh s) (timers s) (promises s) (requests s)
    (listeners s) (connected s) (outbox s) (tasks s) (results s).
Definition set_storage (v : option AuthenticationData) (s : State) : State :=
  mkState (refreshPromise s) (refreshTimeout s) (realtimeHandler s)
    (realtimeRefresh s) v (now s) (fresh s) (timers s) (promises s)
    (requests s) (listeners s) (connected s) (outbox s) (tasks s) (results s).
Definition set_now (v : Z) (s : State) : State :=
  mkState (refreshPromise s) (refreshTimeout s) (realtimeHandler s)
    (realtimeRefresh s) (storage s) v (fresh s) (timers s) (promises s)
    (requests s) (listeners s) (connected s) (outbox s) (tasks s) (results s).
Definition set_fresh (v : positive) (s : State) : State :=
  mkState (refreshPromise s) (refreshTimeout s) (realtimeHandler s)
    (realtimeRefresh s) (storage s) (now s) v (timers s) (promises s)
    (requests s) (listeners s) (connected s) (outbox s) (tasks s) (results s).
Definition set_timers (v : list (positive * Z)) (s : State) : State :=
  mkState (refreshPromise s) (refreshTimeout s) (realtimeHandler s)
    (realtimeRefresh s) (storage s) (now s) (fresh s) v (promises s)
    (requests s) (listeners s) (connected s) (outbox s) (tasks s) (results s).
Definition set_promises (v : gmap positive (Settled AuthenticationData))
  (s : State) : State :=
  mkState (refreshPromise s) (refreshTimeout s) (realtimeHandler s)
    (realtimeRefresh s) (storage s) (now s) (fresh s) (timers s) v
    (requests s) (listeners s) (connected s) (outbox s) (tasks s) (results s).
Definition set_requests (v : list Request) (s : State) : State :=
  mkState (refreshPromise s) (refreshTimeout s) (realtimeHandler s)
    (realtimeRefresh s) (storage s) (now s) (fresh s) (timers s) (promises s)
    v (listeners s) (connected s) (outbox s) (tasks s) (results s).
Definition set_listeners (v : list positive) (s : State) : State :=
  mkState (refreshPromise s) (refreshTimeout s) (realtimeHandler s)
    (realtimeRefresh s) (storage s) (now s) (fresh s) (timers s) (promises s)
    (requests s) v (connected s) (outbox s) (tasks s) (results s).
Definition set_connected (v : bool) (s : State) : State :=
  mkState (refreshPromise s) (refreshTimeout s) (realtimeHandler s)
    (realtimeRefresh s) (storage s) (now s) (fresh s) (timers s) (promises s)
    (requests s) (listeners s) v (outbox s) (tasks s) (results s).
Definition set_outbox (v : list WsMessage) (s : State) : State :=
  mkState (refreshPromise s) (refreshTimeout s) (realtimeHandler s)
    (realtimeRefresh s) (storage s) (now s) (fresh s) (timers s) (promises s)
    (requests s) (listeners s) (connected s) v (tasks s) (results s).
Definition set_tasks (v : list Task) (s : State) : State :=
  mkState (refreshPromise s) (refreshTimeout s) (realtimeHandler s)
    (realtimeRefresh s) (storage s) (now s) (fresh s) (timers s) (promises s)
    (requests s) (listeners s) (connected s) (outbox s) v (results s).
Definition set_results (v : list (nat * Settled Value)) (s : State) : State :=
  mkState (refreshPromise s) (refreshTimeout s) (realtimeHandler s)
    (realtimeRefresh s) (storage s) (now s) (fresh s) (timers s) (promises s)
    (requests s) (listeners s) (connected s) (outbox s) (tasks s) v.

(** Modelled from the spec: the default store [memoryStorage()] of
    [utils/memory-storage.js], which is not among the sources at hand, is a
    passive in-memory holder: [get] yields what the latest [set] stored.
    Before any [set] it yields no record; every read in the composable goes
    through [?.], so this is as good as the all-null record. *)
Definition storage_get (s : State) : option AuthenticationData := storage s.

Definition storage_set (data : AuthenticationData) (s : State) : State :=
  set_storage (Some data) s.

Arguments storage_get s /.
Arguments storage_set data s /.

Definition add_task (t : Task) (s : State) : State :=
  set_tasks (tasks s ++ [t]) s.

Definition add_result (c : nat) (r : Settled Value) (s : State) : State :=
  set_results (results s ++ [(c, r)]) s.

(** Modelled from the spec: the transport [request(url, fetchOptions,
    fetch)] of [utils/request.js], which is not among the sources at hand,
    sends the request and yields the JSON answer or fails; the request
    leaves here and its outcome arrives as a later event. *)
Definition request (r : Request) (s : State) : State :=
  set_requests (requests s ++ [r]) s.

(** Settling of the promise [p]. *)
Definition settle (p : positive) (r : Settled AuthenticationData) (s : State)
  : State :=
  set_promises (<[p := r]> (promises s)) s.

(** The largest delay a host timer holds: a signed 32-bit number of
    milliseconds, a little under 25 days. *)
Definition TIMEOUT_MAX : Z := 2 ^ 31 - 1.

(** Host timers, as Node.js has them: [setTimeout] hands out a fresh handle
    (handles are truthy) and the callback is due [delay] ms from now when
    [1 <= delay <= TIMEOUT_MAX]; any other delay is replaced by 1 ms.
    [clearTimeout] forgets the handle and does nothing for an unknown
    one. *)
Definition setTimeout (delay : Z) (s : State) : positive * State :=
  let t := fresh s in
  let after :=
    if (1 <=? delay) && (delay <=? TIMEOUT_MAX) then delay else 1 in
  (t, set_fresh (Pos.succ t) (set_timers (timers s ++ [(t, now s + after)]) s)).

Definition clearTimeout (t : positive) (s : State) : State :=
  set_timers (filter (λ x, x.1 ≠ t) (timers s)) s.

(** Modelled from the spec: [wsClient.sendMessage] of the real-time
    client, which is not among the sources at hand, sends over the open
    channel and fails synchronously ([None]) when the channel is not
    connected. *)
Definition sendMessage (m : WsMessage) (s : State) : option State :=
  if connected s then Some (set_outbox (outbox s ++ [m]) s) else None.

(** Modelled from the spec: [wsClient.onWebSocket("message", cb)] of the
    real-time client registers the callback and returns the function that
    unsubscribes it; a fresh handle identifies the pair. *)
Definition onWebSocket (s : State) : positive * State :=
  let h := fresh s in
  (h, set_fresh (Pos.succ h) (set_listeners (listeners s ++ [h]) s)).

Definition removeEventHandler (h : positive) (s : State) : State :=
  set_listeners (filter (λ x, x ≠ h) (listeners s)) s.

(** Truthiness of a number-or-null value: [null] and [0] are falsy. *)
Definition truthyZ (o : option Z) : bool :=
  match o with
  | None => false
  | Some z => negb (z =? 0)
  end.

Section Authentication.

(** [authentication(mode, config)(client)] *)
Variable mode : AuthenticationMode.
Variable authConfig : AuthenticationConfig.

(** [client.features.includes('realtime')] *)
Variable realtime : bool.

Definition unauthenticated : AuthenticationData := mkData None None None None.

Definition resetStorage (s : State) : State :=
  storage_set unauthenticated s.

(** The synchronous part of [refresh()]: [awaitRefresh()] runs up to its
    first [await], where it has called [storage.get()], and the promise of
    [awaitRefresh().catch(rethrow)] is assigned to [refreshPromise].  The
    rethrowing [catch] settles like [awaitRefresh()] itself, so one handle
    stands for both promises. *)
Definition refresh (s : State) : positive * State :=
  let authData := storage_get s in
  let p := fresh s in
  (p, set_refreshPromise (Some p)
        (add_task (AwaitRefresh_get p authData) (set_fresh (Pos.succ p) s))).

(** The callback given to [setTimeout] in [setCredentials]; the error of
    the refresh is swallowed. *)
Definition onRefreshTimeout (s : State) : State :=
  (refresh (set_refreshTimeout None s)).2.

(** [data] after [data.expires_at = new Date().getTime() + expires]. *)
Definition stamp (data : AuthenticationData) (s : State) : AuthenticationData :=
  let expires := default 0 (expires data) in
  mkData (access_token data) (refresh_token data) (Auth.expires data)
    (Some (now s + expires)).

Definition setCredentials (data : AuthenticationData) (s : State) : State :=
  let expires := default 0 (expires data) in
  let s := storage_set (stamp data s) s in
  if autoRefresh authConfig
     && (msRefreshBeforeExpires authConfig <? expires)
     && (expires <? MAX_SAFE_INTEGER)
  then
    let s := match refreshTimeout s with
             | Some t => clearTimeout t s
             | None => s
             end in
    let '(t, s) := setTimeout (expires - msRefreshBeforeExpires authConfig) s in
    set_refreshTimeout (Some t) s
  else s.

(** The body of the refresh and logout requests: [{ mode }], plus
    [refresh_token] when [mode === 'json' && authData?.refresh_token]. *)
Definition token_body (authData : option AuthenticationData)
  : list (string * string) :=
  ("mode", mode_string mode) ::
  match mode, authData ≫= refresh_token with
  | json, Some tok => if truthy (Some tok) then [("refresh_token", tok)] else []
  | _, _ => []
  end.

(** [awaitRefresh] after [await storage.get()]. *)
Definition awaitRefresh_afterGet (p : positive)
  (authData : option AuthenticationData) (s : State) : State :=
  let s := resetStorage s in
  let s := request (mkRequest "/auth/refresh" (token_body authData)
                      (credentials authConfig)) s in
  add_task (AwaitRefresh_request p) s.

(** [awaitRefresh] after [await request(...)]. *)
Definition awaitRefresh_afterRequest (p : positive)
  (r : Settled AuthenticationData) (s : State) : State :=
  match r with
  | Resolved data => settle p (Resolved (stamp data s)) (setCredentials data s)
  | Rejected err => settle p (Rejected err) s
  end.

(** [activeRefresh()] up to [await refreshPromise]: the value the variable
    has now is what is awaited. *)
Definition activeRefresh (c : nat) (s : State) : State :=
  add_task (ActiveRefresh_await c (refreshPromise s)) s.

(** [activeRefresh] after the [await]: the [finally] block runs, and a
    rejection travels on through [refreshIfExpired] to the caller of
    [getToken].  [None] when the awaited promise is still pending. *)
Definition activeRefresh_afterAwait (c : nat) (awaited : option positive)
  (s : State) : option State :=
  match awaited with
  | None => Some (add_task (GetToken_resume c) (set_refreshPromise None s))
  | Some p =>
      match promises s !! p with
      | None => None
      | Some (Resolved _) =>
          Some (add_task (GetToken_resume c) (set_refreshPromise None s))
      | Some (Rejected err) =>
          Some (add_result c (Rejected err) (set_refreshPromise None s))
      end
  end.

(** [refreshIfExpired()] up to [await storage.get()]. *)
Definition refreshIfExpired (c : nat) (s : State) : State :=
  add_task (RefreshIfExpired_get c (storage_get s)) s.

(** [refreshIfExpired] after [await storage.get()]; both [if]s end in
    [await activeRefresh()]. *)
Definition refreshIfExpired_afterGet (c : nat)
  (authData : option AuthenticationData) (s : State) : State :=
  if bool_decide (is_Some (refreshPromise s))
     || negb (truthyZ (authData ≫= expires_at))
  then activeRefresh c s
  else
    let expired :=
      match authData ≫= expires_at with
      | Some at_ => at_ <? now s + msRefreshBeforeExpires authConfig
      | None => false
      end in
    activeRefresh c (if expired then (refresh s).2 else s).

(** [getToken()] *)
Definition getToken (c : nat) (s : State) : State := refreshIfExpired c s.

(** [getToken] once [refreshIfExpired()] has returned: it calls
    [storage.get()] and awaits it. *)
Definition getToken_afterRefresh (c : nat) (s : State) : State :=
  add_task (GetToken_get c (storage_get s)) s.

(** [return data?.access_token ?? null] *)
Definition getToken_afterGet (c : nat) (data : option AuthenticationData)
  (s : State) : State :=
  add_result c (Resolved (VToken (data ≫= access_token))) s.

(** [setToken(access_token)] *)
Definition setToken (tok : option string) (s : State) : State :=
  storage_set (mkData tok None None None) s.

(** The listener installed by [login]. An exception of [sendMessage]
    leaves the listener without further effect. *)
Definition onMessage (msg : Message) (s : State) : State :=
  if bool_decide (type msg = Some "auth") then
    if bool_decide (status msg = Some "ok") then
      set_realtimeRefresh (msg_refresh_token msg) s
    else if bool_decide (status msg = Some "error")
            && bool_decide (error_code msg = Some "TOKEN_EXPIRED") then
      match realtimeRefresh s with
      | Some tok =>
          if truthy (Some tok)
          then default s (sendMessage (AuthRefreshToken tok) s)
          else s
      | None => s
      end
    else s
  else s.

(** [login(email, password, options)] up to [await request(...)]. *)
Definition login (c : nat) (email password : string) (options : LoginOptions)
  (s : State) : State :=
  let s := resetStorage s in
  let authData :=
    [("email", email); ("password", password)]
    ++ match otp options with Some o => [("otp", o)] | None => [] end
    ++ [("mode", mode_string (default mode (opt_mode options)))] in
  let s := request (mkRequest "/auth/login" authData
                      (credentials authConfig)) s in
  add_task (Login_request c email password) s.

(** [login] after [await request(...)]. *)
Definition login_afterRequest (c : nat) (email password : string)
  (r : Settled AuthenticationData) (s : State) : State :=
  match r with
  | Rejected err => add_result c (Rejected err) s
  | Resolved data =>
      let s1 := setCredentials data s in
      let s2 :=
        if realtime then
          let '(h, s2) := onWebSocket s1 in
          let s2 := set_realtimeHandler (Some h) s2 in
          match sendMessage (AuthCredentials email password) s2 with
          | Some s3 => s3
          | None => add_task (Login_connect email password) s2
          end
        else s1 in
      add_result c (Resolved (VData (stamp data s))) s2
  end.

(** [wsClient.connect().then(...)] in [login]: the socket is open and the
    credentials are sent. *)
Definition login_afterConnect (email password : string) (s : State) : State :=
  let s := set_connected true s in
  default s (sendMessage (AuthCredentials email password) s).

(** [logout()] up to [await storage.get()]. *)
Definition logout (c : nat) (s : State) : State :=
  add_task (Logout_get c (storage_get s)) s.

(** [logout] after [await storage.get()], up to [await request(...)]. *)
Definition logout_afterGet (c : nat) (authData : option AuthenticationData)
  (s : State) : State :=
  let s := request (mkRequest "/auth/logout" (token_body authData)
                      (credentials authConfig)) s in
  add_task (Logout_request c) s.

(** [logout] after [await request(...)]: a rejection leaves the function
    at the [await]. *)
Definition logout_afterRequest (c : nat) (r : Settled AuthenticationData)
  (s : State) : State :=
  match r with
  | Rejected err => add_result c (Rejected err) s
  | Resolved _ =>
      let s := match realtimeHandler s with
               | Some h => removeEventHandler h s
               | None => s
               end in
      let s := match refreshTimeout s with
               | Some t => clearTimeout t s
               | None => s
               end in
      add_result c (Resolved VUndefined) (resetStorage s)
  end.

(** *** The event loop *)

(** What can happen next to a session: the application calls the public
    interface, a suspended function is resumed, the network answers, a
    timer comes due, the socket delivers a message, time passes. *)
Inductive Event :=
| CallRefresh (c : nat)
| CallLogin (c : nat) (email password : string) (options : LoginOptions)
| CallLogout (c : nat)
| CallGetToken (c : nat)
| CallSetToken (access_token : option string)
| Resume (i : nat)
| Reply (i : nat) (r : Settled AuthenticationData)
| Fire (t : positive)
| Inbound (msg : Message)
| Advance (dt : Z).

(** Takes the [i]-th suspended function out of the pool. *)
Definition take_task (i : nat) (s : State) : option (Task * State) :=
  t ← tasks s !! i; Some (t, set_tasks (delete i (tasks s)) s).

(** Resumption of a function that waits for a promise of the session
    itself, for [storage.get()] or for [connect()]. *)
Definition resume (t : Task) (s : State) : option State :=
  match t with
  | RefreshIfExpired_get c authData => Some (refreshIfExpired_afterGet c authData s)
  | ActiveRefresh_await c awaited => activeRefresh_afterAwait c awaited s
  | GetToken_resume c => Some (getToken_afterRefresh c s)
  | GetToken_get c data => Some (getToken_afterGet c data s)
  | AwaitRefresh_get p authData => Some (awaitRefresh_afterGet p authData s)
  | Refresh_caller c p =>
      match promises s !! p with
      | Some (Resolved d) => Some (add_result c (Resolved (VData d)) s)
      | Some (Rejected err) => Some (add_result c (Rejected err) s)
      | None => None
      end
  | Login_connect email password => Some (login_afterConnect email password s)
  | Logout_get c authData => Some (logout_afterGet c authData s)
  | AwaitRefresh_request _ | Login_request _ _ _ | Logout_request _ => None
  end.

(** Resumption of a function that waits for the network. *)
Definition reply (t : Task) (r : Settled AuthenticationData) (s : State)
  : option State :=
  match t with
  | AwaitRefresh_request p => Some (awaitRefresh_afterRequest p r s)
  | Login_request c email password =>
      Some (login_afterRequest c email password r s)
  | Logout_request c => Some (logout_afterRequest c r s)
  | _ => None
  end.

(** A timer fires once it is due, and only while it is armed. *)
Definition fire (t : positive) (s : State) : option State :=
  match list_find (λ x, x.1 = t) (timers s) with
  | Some (_, (_, due)) =>
      if due <=? now s then Some (onRefreshTimeout (clearTimeout t s))
      else None
  | None => None
  end.

(** An inbound message runs every installed listener. *)
Definition dispatch (msg : Message) (s : State) : State :=
  foldl (λ s _, onMessage msg s) s (listeners s).

(** One turn of the event loop; [None] when the event cannot happen in
    [s]. *)
Definition step (e : Event) (s : State) : option State :=
  match e with
  | CallRefresh c =>
      let '(p, s) := refresh s in Some (add_task (Refresh_caller c p) s)
  | CallLogin c email password options =>
      Some (login c email password options s)
  | CallLogout c => Some (logout c s)
  | CallGetToken c => Some (getToken c s)
  | CallSetToken tok => Some (setToken tok s)
  | Resume i => '(t, s) ← take_task i s; resume t s
  | Reply i r => '(t, s) ← take_task i s; reply t r s
  | Fire t => fire t s
  | Inbound msg => if connected s then Some (dispatch msg s) else None
  | Advance dt => if 0 <=? dt then Some (set_now (now s + dt) s) else None
  end.

Fixpoint run (es : list Event) (s : State) : option State :=
  match es with
  | [] => Some s
  | e :: es => step e s ≫= run es
  end.

End Authentication.

(** A new session at time [t0]: nothing stored, nothing pending. *)
Definition init (t0 : Z) (connected : bool) : State :=
  mkState None None None None None t0 1%positive [] ∅ [] [] connected [] [] [].

Section Reachability.

Variable mode : AuthenticationMode.
Variable authConfig : AuthenticationConfig.
Variable realtime : bool.

Inductive reachable : State → Prop :=
| reachable_init t0 conn : reachable (init t0 conn)
| reachable_step e s s' :
    reachable s → step mode authConfig realtime e s = Some s' → reachable s'.

End Reachability.

(** The number of refresh requests that are on the network. *)
Definition is_refresh_request (t : Task) : bool :=
  match t with
  | AwaitRefresh_request _ => true
  | _ => false
  end.

Definition outstanding_refreshes (s : State) : nat :=
  length (filter (λ t, is_refresh_request t = true) (tasks s)).

(** *** Properties stated about sessions *)

(** Every armed timer is the one [refreshTimeout] refers to. *)
Definition timer_tracked (s : State) : Prop :=
  timers s = [] ∨ ∃ t due, timers s = [(t, due)] ∧ refreshTimeout s = Some t.

(** The clean-up of [logout], relating the state [s] in which its request
    is answered to the state [s'] it leaves: the listener and the timer the
    session referred to are gone and the stored record is the
    unauthenticated one. *)
Definition cleaned_up (s s' : State) : Prop :=
  (∀ h, realtimeHandler s = Some h → h ∉ listeners s')
  ∧ (∀ t, refreshTimeout s = Some t → t ∉ (timers s').*1)
  ∧ storage s' = Some unauthenticated.

(** What [await refreshPromise] meets.  The variable is assigned by
    [refresh()] and cleared only by the [finally] of [activeRefresh], so it
    may hold a promise that settled long ago: either none is set or the
    one that is set was fulfilled, or the one that is set was rejected
    with [err]. *)
Definition refresh_not_failed (s : State) : Prop :=
  match refreshPromise s with
  | None => True
  | Some p => ∃ d, promises s !! p = Some (Resolved d)
  end.

Definition refresh_failed (err : string) (s : State) : Prop :=
  ∃ p, refreshPromise s = Some p ∧ promises s !! p = Some (Rejected err).

(** *** Scenarios *)

(** What the server issues in the scenarios: a token pair that lives for
    15 minutes, and one without a lifetime. *)
Definition issued : AuthenticationData :=
  mkData (Some "access-1") (Some "refresh-1") (Some 900000) None.

Definition issued_without_expiry : AuthenticationData :=
  mkData (Some "access-1") (Some "refresh-1") None None.


(** A token that lives for 3 000 000 seconds, about 34 days. *)
Definition long_lived : AuthenticationData :=
  mkData (Some "access-1") (Some "refresh-1") (Some 3000000000) None.

Definition no_options : LoginOptions := mkOptions None None.

(** A successful login at time 1000. *)
Definition login_events (data : AuthenticationData) : list Event :=
  [CallLogin 0 "admin@example.com" "secret" no_options;
   Reply 0 (Resolved data)].

(** An inbound message that records a rotation token: [type] is ["auth"]
    and [status] is ["ok"]. *)
Definition is_auth_ok (msg : Message) : bool :=
  bool_decide (type msg = Some "auth") && bool_decide (status msg = Some "ok").

(** Messages of the reauthentication scenario. *)
Definition ok_message (tok : string) : Message :=
  mkMessage (Some "auth") (Some "ok") (Some tok) None.

Definition token_expired_message : Message :=
  mkMessage (Some "auth") (Some "error") None (Some "TOKEN_EXPIRED").

(** The state a new session ([json] mode, default configuration,
    real-time feature on, socket open, clock at 1000) is in after the
    events [es]. *)
Definition state_after (es : list Event) : State :=
  default (init 1000 true)
    (run json defaultConfigValues true es (init 1000 true)).

(** A session that was only given a static token. *)
Definition holding_static_token : State :=
  state_after [CallSetToken (Some "static")].

(** A session whose scheduled refresh failed and which logged in again:
    the rejected promise of the failed refresh is still in
    [refreshPromise], though nothing is in flight. *)
Definition relogged_after_failed_refresh : State :=
  state_after (login_events issued
               ++ [Advance 870000; Fire 1; Resume 0; Reply 0 (Rejected "401")]
               ++ login_events issued).

(** Sessions that logged in and then called [logout()] or [refresh()], up
    to the point where the request is on the network; and one that calls
    [getToken()] right after [refresh()]. *)
Definition logging_out : State :=
  state_after (login_events issued ++ [CallLogout 1; Resume 0]).

Definition refreshing : State :=
  state_after (login_events issued ++ [CallRefresh 1; Resume 0]).

Definition joining : State :=
  state_after (login_events issued ++ [CallRefresh 1; CallGetToken 2]).

(** *** Concurrent calls *)

(** [s'] differs from [s] at most in the pool of suspended functions, in
    the results handed to callers, in [refreshPromise] and in the supply
    of fresh handles. *)
Definition frame (s s' : State) : Prop :=
  refreshTimeout s' = refreshTimeout s
  ∧ realtimeHandler s' = realtimeHandler s
  ∧ realtimeRefresh s' = realtimeRefresh s
  ∧ storage s' = storage s
  ∧ now s' = now s
  ∧ timers s' = timers s
  ∧ promises s' = promises s
  ∧ requests s' = requests s
  ∧ listeners s' = listeners s
  ∧ connected s' = connected s
  ∧ outbox s' = outbox s.

(** [n] resumptions in a row of the function at position [i] of the
    pool. *)
Definition resumes (n i : nat) : list Event := replicate n (Resume i).

(** The callers [cs] call [getToken()] one after the other on a session
    whose pool holds [i] functions; the expiry checks resume in the order
    of the calls, then the [awaitRefresh] the first of them started, which
    sends the request; the request is answered with [r]; and the callers
    resume in turn up to the rejection of their [await]. *)
Definition concurrent_getToken_events (i : nat) (cs : list nat)
  (r : Settled AuthenticationData) : list Event :=
  (CallGetToken <$> cs) ++ resumes (length cs) i ++ [Resume i]
  ++ [Reply (i + length cs) r] ++ resumes (length cs) i.

(** After a successful answer each caller goes on to read the store and
    to return. *)
Definition getToken_return_events (i : nat) (cs : list nat) : list Event :=
  resumes (length cs) i ++ resumes (length cs) i.

(** More scenarios.  The record stored by the login with [issued] at time
    1000, the session 880 seconds later, when the record is within
    [msRefreshBeforeExpires] of its expiry, and what the server issues
    next. *)
Definition stored_issued : AuthenticationData :=
  mkData (Some "access-1") (Some "refresh-1") (Some 900000) (Some 901000).

Definition expired_session : State :=
  state_after (login_events issued ++ [Advance 880000]).

Definition reissued : AuthenticationData :=
  mkData (Some "access-2") (Some "refresh-2") (Some 900000) None.

(** A session right after its login. *)
Definition logged_in : State := state_after (login_events issued).

(** A session whose timer has come due. *)
Definition timer_due : State :=
  state_after (login_events issued ++ [Advance 870000]).

(** *** What goes over the network *)

(** The shape of a request the composable sends: it carries the
    [credentials] of the configuration and goes to the login endpoint, or
    it goes to the refresh or logout endpoint with the body [{ mode }],
    to which [json] mode may add a non-empty [refresh_token]. *)
Definition request_ok (mode : AuthenticationMode)
  (authConfig : AuthenticationConfig) (r : Request) : Prop :=
  req_credentials r = credentials authConfig
  ∧ (path r = "/auth/login"
     ∨ ((path r = "/auth/refresh" ∨ path r = "/auth/logout")
        ∧ (body r = [("mode", mode_string mode)]
           ∨ (mode = json
              ∧ ∃ tok, tok ≠ EmptyString
                       ∧ body r = [("mode", "json");
                                   ("refresh_token", tok)])))).

(** *** The configuration *)

(** The [config] argument of [authentication]: a [Partial] of the
    configuration, a key that is absent being [None]. *)
Record PartialConfig := mkPartial {
  given_msRefreshBeforeExpires : option Z;
  given_autoRefresh : option bool;
  given_credentials : option string;
}.

(** [{ ...defaultConfigValues, ...config }]; the defaults have no
    [credentials] key. *)
Definition mergeConfig (config : PartialConfig) : AuthenticationConfig :=
  mkConfig
    (default (msRefreshBeforeExpires defaultConfigValues)
       (given_msRefreshBeforeExpires config))
    (default (autoRefresh defaultConfigValues) (given_autoRefresh config))
    (given_credentials config).

(** The client of the app:
    [authentication('session', { credentials: 'include',
    msRefreshBeforeExpires: 10_000 })]. *)
Definition sdk_mode : AuthenticationMode := session.

Definition sdk_config : AuthenticationConfig :=
  mergeConfig (mkPartial (Some 10000) None (Some "include")).

(** The app's client after a login and a call of [refresh()] whose
    request is on the network. *)
Definition sdk_refreshing : State :=
  default (init 1000 false)
    (run sdk_mode sdk_config false
       (login_events issued ++ [CallRefresh 1; Resume 0]) (init 1000 false)).

(** *** The stored record *)

(** A stored record without [expires_at] has neither a lifetime nor a
    refresh token; a stored [expires_at] lies no further ahead than the
    lifetime of the record. *)
Definition record_ok (s : State) : Prop :=
  match storage s with
  | None => True
  | Some d =>
      match expires_at d with
      | None => expires d = None ∧ refresh_token d = None
      | Some e => e ≤ now s + default 0 (expires d)
      end
  end.

End Auth.

(** * Properties of the mutex *)

Section MutexFacts.

Import Mutex.

Lemma jsNumber_jsString (z : Z) : jsNumber (jsString z) = Some z.
Proof.
  unfold jsNumber, jsString.
  rewrite NilZero.isi.
  - cbn. by rewrite DecimalZ.of_to.
  - destruct z as [|p|p]; simpl; try discriminate.
    intros [= H]. by apply (DecimalPos.Unsigned.to_uint_nonnil p).
  - destruct z as [|p|p]; simpl; try discriminate.
    intros [= H]. by apply (DecimalPos.Unsigned.to_uint_nonnil p).
Qed.

Lemma jsString_truthy (z : Z) : truthy (Some (jsString z)) = true.
Proof.
  unfold truthy. destruct (String.eqb_spec (jsString z) EmptyString) as [E|E]; [|done].
  pose proof (jsNumber_jsString z) as H. rewrite E in H. discriminate.
Qed.

(** The guard on a record that [localStorageLock] wrote itself: it holds
    exactly when the recorded expiry lies more than [expiresMs] in the
    future. *)
Lemma acquirable_written (expiresMs e : Z) (w : World) :
  acquirable expiresMs (Some (jsString e)) w = (now w + expiresMs <? e).
Proof.
  unfold acquirable. rewrite jsString_truthy. simpl.
  by rewrite jsNumber_jsString.
Qed.

(** A record written at time [t0] by a holder using the same lease length
    fails the guard at every later time, expired or not. *)
Lemma written_lease_never_acquirable (expiresMs t0 : Z) (w : World) :
  t0 ≤ now w →
  acquirable expiresMs (Some (jsString (t0 + expiresMs))) w = false.
Proof. intros H. rewrite acquirable_written. apply Z.ltb_ge. lia. Qed.

(** With no record under the key the guard holds. *)
Lemma acquirable_absent (expiresMs : Z) (w : World) :
  acquirable expiresMs None w = true.
Proof. reflexivity. Qed.

Section Polling.

Variable key : string.
Variable expiresMs : Z.
Variable callback : World → Settled unit * World.
Variable sleep : nat → World → World.

Lemma poll_refused (w0 : World) (left retries : nat) (tr : list Action) :
  (∀ i, (retries ≤ i ≤ retries + left)%nat →
        refused_at key expiresMs sleep w0 i) →
  poll key expiresMs callback sleep left retries (world_at sleep retries w0) tr
  = mkRun (Resolved ())
      (tr ++ concat (replicate (S left) (idle_round key)))
      (world_at sleep (retries + S left) w0).
Proof.
  revert retries tr. induction left as [|left IH]; intros retries tr Href.
  - simpl. rewrite (Href retries) by lia. simpl.
    rewrite app_nil_r, <- app_assoc. simpl.
    by replace (retries + 1)%nat with (S retries) by lia.
  - cbn [poll]. rewrite (Href retries) by lia.
    change (sleep retries (world_at sleep retries w0))
      with (world_at sleep (S retries) w0).
    rewrite IH by (intros i Hi; apply Href; lia).
    f_equal.
    + rewrite <- !app_assoc. reflexivity.
    + f_equal. lia.
Qed.

(** Acquisition when no record is present: the record written carries
    [now + expiresMs], the callback runs on the world holding it, and the
    record is removed afterwards whatever the callback's outcome. *)
Lemma localStorageLock_absent (w : World) :
  getItem (internalKey key) w = None →
  let v := jsString (now w + expiresMs) in
  let held := setItem (internalKey key) v w in
  localStorageLock key expiresMs callback sleep w
  = mkRun (callback held).1
      [AGet (internalKey key); ASet (internalKey key) v; ACallback;
       ARemove (internalKey key)]
      (removeItem (internalKey key) (callback held).2).
Proof.
  intros Hnone. unfold localStorageLock. simpl. rewrite Hnone. simpl.
  by destruct (callback _) as [r w2].
Qed.

End Polling.

Lemma idle_rounds_only_read_and_sleep (key : string) (n : nat) (a : Action) :
  a ∈ concat (replicate n (idle_round key)) →
  a = AGet (internalKey key) ∨ a = ASleep timeout.
Proof.
  induction n as [|n IH]; simpl.
  - by intros ?%elem_of_nil.
  - rewrite !elem_of_cons. intros [->|[->|H]]; auto.
Qed.

(** C8: on the fallback path, when the guard of the loop fails at each of
    the [maxRetries] = 10 attempts, [acquireMutex] resolves normally; all it
    did was read the record and sleep [timeout] = 50 ms ten times, so the
    callback was not invoked and the record was neither written nor
    removed: the world is the one the sleeps left behind. *)
Theorem acquireMutex_exhausted_skips
  (key : string) (expiresMs : Z) (callback : World → Settled unit * World)
  (sleep : nat → World → World) (webLockRequest : string → World → Run)
  (w : World) :
  (∀ i, (i < maxRetries)%nat → refused_at key expiresMs sleep w i) →
  let r := acquireMutex key expiresMs callback sleep webLockRequest false w in
  result r = Resolved ()
  ∧ trace r = concat (replicate maxRetries (idle_round key))
  ∧ (ACallback ∉ trace r)
  ∧ (∀ k v, ASet k v ∉ trace r)
  ∧ (∀ k, ARemove k ∉ trace r)
  ∧ final r = world_at sleep maxRetries w.
Proof.
  intros Href r.
  assert (r = mkRun (Resolved ())
                (concat (replicate maxRetries (idle_round key)))
                (world_at sleep maxRetries w)) as ->.
  { subst r. unfold acquireMutex, localStorageLock.
    apply (poll_refused key expiresMs callback sleep w 9 0 []).
    intros i Hi. apply Href. unfold maxRetries. lia. }
  cbn [result trace final].
  split_and!; try done.
  - intros H. by apply idle_rounds_only_read_and_sleep in H as [?|?].
  - intros k v H. by apply idle_rounds_only_read_and_sleep in H as [?|?].
  - intros k H. by apply idle_rounds_only_read_and_sleep in H as [?|?].
Qed.

Lemma acquireMutex_exhausted_skips_witness :
  result (acquireMutex "auth_refresh" 100 succeeding ticking no_web_lock
            false stale_world) = Resolved ().
Proof.
  apply (acquireMutex_exhausted_skips "auth_refresh" 100 succeeding ticking
           no_web_lock stale_world).
  intros i Hi. unfold maxRetries in Hi.
  do 10 (destruct i as [|i]; [vm_compute; reflexivity|]).
  lia.
Defined.

(** C1: the record of a holder that died is never taken over.  The record
    under the key carries expiry 1000, the clock reads 5000, so the lease
    ran out 4000 ms ago; still all ten attempts are refused, the callback
    does not run and the dead holder's record stays in place. *)
Theorem localStorageLock_expired_record_blocks :
  let r := localStorageLock "auth_refresh" 100 succeeding ticking stale_world in
  getItem (internalKey "auth_refresh") stale_world = Some "1000"
  ∧ jsNumber "1000" = Some 1000
  ∧ 1000 < now stale_world
  ∧ result r = Resolved ()
  ∧ trace r = concat (replicate 10 (idle_round "auth_refresh"))
  ∧ now (final r) = 5500
  ∧ getItem (internalKey "auth_refresh") (final r) = Some "1000".
Proof. vm_compute. split_and!; reflexivity. Qed.

End MutexFacts.

(** * Properties of the authentication session *)

Section AuthFacts.

Import Auth.

Variable mode : AuthenticationMode.
Variable authConfig : AuthenticationConfig.
Variable realtime : bool.

(** ** Addressing suspended functions *)

Lemma take_task_middle (s : State) (l : list Task) (t : Task) (ts : list Task) :
  tasks s = l ++ t :: ts →
  take_task (length l) s = Some (t, set_tasks (l ++ ts) s).
Proof.
  intros E. unfold take_task. rewrite E, list_lookup_middle by done.
  simpl. by rewrite delete_middle.
Qed.

Lemma take_task_lookup (s : State) (i : nat) (t : Task) :
  tasks s !! i = Some t →
  take_task i s = Some (t, set_tasks (delete i (tasks s)) s).
Proof. intros E. unfold take_task. by rewrite E. Qed.

(** ** What [setCredentials] stores and arms *)

Lemma cancel_single (t : positive) (due : Z) :
  filter (λ x : positive * Z, x.1 ≠ t) [(t, due)] = [].
Proof.
  rewrite filter_cons_False by (simpl; intros H; by apply H).
  apply filter_nil.
Qed.

Lemma setCredentials_storage (data : AuthenticationData) (s : State) :
  storage (setCredentials authConfig data s) = Some (stamp data s).
Proof.
  unfold setCredentials.
  destruct (_ && _); [|done].
  destruct (refreshTimeout _); reflexivity.
Qed.

Lemma setCredentials_armed (data : AuthenticationData) (E : Z) (s : State) :
  timer_tracked s →
  expires data = Some E →
  autoRefresh authConfig = true →
  msRefreshBeforeExpires authConfig < E < MAX_SAFE_INTEGER →
  let s' := setCredentials authConfig data s in
  let delay := E - msRefreshBeforeExpires authConfig in
  timers s'
  = [(fresh s, now s + (if delay <=? TIMEOUT_MAX then delay else 1))]
  ∧ refreshTimeout s' = Some (fresh s).
Proof.
  intros Hinv HE Hauto [Hlo Hhi] s' delay. subst s'.
  unfold setCredentials, setTimeout.
  rewrite HE, Hauto. simpl (default 0 (Some E)). fold delay.
  assert ((1 <=? delay) = true) as -> by (apply Z.leb_le; subst delay; lia).
  apply Z.ltb_lt in Hlo as ->. apply Z.ltb_lt in Hhi as ->.
  cbn [andb].
  destruct Hinv as [Hnil | (t & due & Ht & Hr)].
  - destruct (refreshTimeout s) as [t|] eqn:Hr; simpl; rewrite Hr; simpl;
      rewrite Hnil; done.
  - simpl. rewrite Hr. simpl. by rewrite Ht, cancel_single.
Qed.

(** Within the range of the host timer the delay is kept as asked. *)
Lemma setCredentials_armed_in_range (data : AuthenticationData) (E : Z)
  (s : State) :
  timer_tracked s →
  expires data = Some E →
  autoRefresh authConfig = true →
  msRefreshBeforeExpires authConfig < E < MAX_SAFE_INTEGER →
  E - msRefreshBeforeExpires authConfig ≤ TIMEOUT_MAX →
  let s' := setCredentials authConfig data s in
  timers s' = [(fresh s, now s + (E - msRefreshBeforeExpires authConfig))]
  ∧ refreshTimeout s' = Some (fresh s).
Proof.
  intros Hinv HE Hauto Hrange Hmax.
  destruct (setCredentials_armed data E s Hinv HE Hauto Hrange) as [Ht Hr].
  apply Z.leb_le in Hmax. rewrite Hmax in Ht. done.
Qed.

(** Beyond that range the host replaces the delay by 1 ms. *)
Lemma setCredentials_armed_beyond_range (data : AuthenticationData) (E : Z)
  (s : State) :
  timer_tracked s →
  expires data = Some E →
  autoRefresh authConfig = true →
  msRefreshBeforeExpires authConfig < E < MAX_SAFE_INTEGER →
  TIMEOUT_MAX < E - msRefreshBeforeExpires authConfig →
  let s' := setCredentials authConfig data s in
  timers s' = [(fresh s, now s + 1)]
  ∧ refreshTimeout s' = Some (fresh s).
Proof.
  intros Hinv HE Hauto Hrange Hmax.
  destruct (setCredentials_armed data E s Hinv HE Hauto Hrange) as [Ht Hr].
  apply Z.leb_gt in Hmax. rewrite Hmax in Ht. done.
Qed.

Lemma setCredentials_tracked (data : AuthenticationData) (s : State) :
  timer_tracked s → timer_tracked (setCredentials authConfig data s).
Proof.
  intros Hinv. unfold setCredentials.
  destruct (_ && _) eqn:Hguard.
  - right. destruct Hinv as [Hnil | (t & due & Ht & Hr)].
    + simpl. destruct (refreshTimeout s) as [t|]; simpl; rewrite Hnil; eauto.
    + simpl. rewrite Hr. simpl. rewrite Ht, cancel_single. simpl. eauto.
  - exact Hinv.
Qed.

(** ** At most one timer is armed *)

Lemma tracked_same (s s' : State) :
  timers s' = timers s → refreshTimeout s' = refreshTimeout s →
  timer_tracked s → timer_tracked s'.
Proof. unfold timer_tracked. intros -> ->. done. Qed.

Lemma onMessage_timers (msg : Message) (s : State) :
  timers (onMessage msg s) = timers s
  ∧ refreshTimeout (onMessage msg s) = refreshTimeout s.
Proof.
  unfold onMessage, sendMessage.
  repeat (case_bool_decide || case_match); simplify_eq/=; done.
Qed.

Lemma dispatch_timers (msg : Message) (s : State) :
  timers (dispatch msg s) = timers s
  ∧ refreshTimeout (dispatch msg s) = refreshTimeout s.
Proof.
  unfold dispatch. generalize (listeners s) as hs. intros hs. revert s.
  induction hs as [|h hs IH]; intros s; simpl; [done|].
  destruct (IH (onMessage msg s)) as [-> ->]. apply onMessage_timers.
Qed.

Lemma resume_tracked (t : Task) (s s' : State) :
  timer_tracked s → resume mode authConfig t s = Some s' → timer_tracked s'.
Proof.
  intros Hinv Hres. destruct t; simpl in Hres;
    unfold refreshIfExpired_afterGet, activeRefresh_afterAwait,
      login_afterConnect, sendMessage in Hres;
    repeat case_match; simplify_eq/=;
    by eapply tracked_same; [| |exact Hinv].
Qed.

Lemma logout_afterRequest_tracked (c : nat) (r : Settled AuthenticationData)
  (s : State) :
  timer_tracked s → timer_tracked (logout_afterRequest c r s).
Proof.
  intros Hinv. destruct r as [d|err]; simpl.
  - assert (timers (match realtimeHandler s with
                    | Some h => removeEventHandler h s
                    | None => s
                    end) = timers s
            ∧ refreshTimeout (match realtimeHandler s with
                    | Some h => removeEventHandler h s
                    | None => s
                    end) = refreshTimeout s) as [Ht Hr]
      by (by destruct (realtimeHandler s)).
    rewrite Hr.
    destruct Hinv as [Hnil | (t & due & Hts & Hrt)].
    + left. destruct (refreshTimeout s); simpl; by rewrite Ht, Hnil.
    + left. rewrite Hrt. simpl. by rewrite Ht, Hts, cancel_single.
  - by eapply tracked_same; [| |exact Hinv].
Qed.

Lemma reply_tracked (t : Task) (r : Settled AuthenticationData) (s s' : State) :
  timer_tracked s → reply authConfig realtime t r s = Some s' →
  timer_tracked s'.
Proof.
  intros Hinv Hres. destruct t; simpl in Hres; simplify_eq.
  - destruct r as [d|err]; simpl.
    + by eapply tracked_same; [| |exact (setCredentials_tracked d s Hinv)].
    + by eapply tracked_same; [| |exact Hinv].
  - destruct r as [d|err]; simpl.
    + pose proof (setCredentials_tracked d s Hinv) as Hset.
      destruct realtime; simpl; unfold sendMessage; simpl;
        repeat case_match; simplify_eq/=;
        by eapply tracked_same; [| |exact Hset].
    + by eapply tracked_same; [| |exact Hinv].
  - by apply logout_afterRequest_tracked.
Qed.

Lemma fire_tracked (t : positive) (s s' : State) :
  timer_tracked s → fire t s = Some s' → timer_tracked s'.
Proof.
  intros Hinv Hres. unfold fire in Hres.
  destruct (list_find _ _) as [[i [t' due]]|] eqn:Hfind; [|done].
  destruct (due <=? now s); simplify_eq.
  apply list_find_Some in Hfind as (Hi & Ht' & _). simpl in Ht'. subst t'.
  destruct Hinv as [Hnil | (t0 & due0 & Hts & Hrt)].
  - by rewrite Hnil in Hi.
  - rewrite Hts in Hi. destruct i as [|i]; [|done]. simplify_eq/=.
    left. simpl. by rewrite Hts, cancel_single.
Qed.

Lemma step_tracked (e : Event) (s s' : State) :
  timer_tracked s → step mode authConfig realtime e s = Some s' →
  timer_tracked s'.
Proof.
  intros Hinv Hstep. destruct e; simpl in Hstep.
  - simplify_eq. by eapply tracked_same; [| |exact Hinv].
  - simplify_eq. by eapply tracked_same; [| |exact Hinv].
  - simplify_eq. by eapply tracked_same; [| |exact Hinv].
  - simplify_eq. by eapply tracked_same; [| |exact Hinv].
  - simplify_eq. by eapply tracked_same; [| |exact Hinv].
  - destruct (take_task i s) as [[t s1]|] eqn:Htake; [|done]. simpl in Hstep.
    unfold take_task in Htake. destruct (tasks s !! i); simplify_eq/=.
    eapply resume_tracked; [|exact Hstep].
    by eapply tracked_same; [| |exact Hinv].
  - destruct (take_task i s) as [[t s1]|] eqn:Htake; [|done]. simpl in Hstep.
    unfold take_task in Htake. destruct (tasks s !! i); simplify_eq/=.
    eapply reply_tracked; [|exact Hstep].
    by eapply tracked_same; [| |exact Hinv].
  - by eapply fire_tracked.
  - destruct (connected s); simplify_eq.
    destruct (dispatch_timers msg s) as [Ht Hr].
    by eapply tracked_same; [| |exact Hinv].
  - destruct (0 <=? dt); simplify_eq. by eapply tracked_same; [| |exact Hinv].
Qed.

Lemma reachable_tracked (s : State) :
  reachable mode authConfig realtime s → timer_tracked s.
Proof.
  induction 1 as [t0 conn | e s s' _ IH Hstep].
  - by left.
  - by eapply step_tracked.
Qed.


Lemma fire_armed (t : positive) (due : Z) (s : State) :
  timers s = [(t, due)] →
  fire t s = if due <=? now s
             then Some (onRefreshTimeout (clearTimeout t s)) else None.
Proof.
  intros E. unfold fire. rewrite E. simpl.
  by rewrite decide_True by done.
Qed.



(** ** The stored expiry *)

(** C4 (as the code has it): the record [setCredentials] stores always
    carries an [expires_at], namely the time of the call plus the reported
    lifetime, with a missing lifetime counting as 0; whatever [expires_at]
    the incoming data held is overwritten.  The same record is what a
    successful login and a successful refresh leave in the store. *)
Theorem setCredentials_derives_expires_at
  (data : AuthenticationData) (s : State) (c : nat) (email password : string)
  (p : positive) (supplied : option Z) :
  let stored :=
    mkData (access_token data) (refresh_token data) (expires data)
      (Some (now s + default 0 (expires data))) in
  storage (setCredentials authConfig data s) = Some stored
  ∧ storage (setCredentials authConfig
               (mkData (access_token data) (refresh_token data)
                  (expires data) supplied) s) = Some stored
  ∧ storage (login_afterRequest authConfig realtime c email password
               (Resolved data) s) = Some stored
  ∧ storage (awaitRefresh_afterRequest authConfig p (Resolved data) s)
    = Some stored.
Proof.
  intros stored. split_and!.
  - apply setCredentials_storage.
  - apply setCredentials_storage.
  - simpl. destruct realtime; simpl.
    + unfold sendMessage. simpl.
      destruct (connected (setCredentials authConfig data s)); simpl;
        apply setCredentials_storage.
    + apply setCredentials_storage.
  - simpl. apply setCredentials_storage.
Qed.

(** ** Running events *)

Lemma run_cons (e : Event) (es : list Event) (s : State) :
  run mode authConfig realtime (e :: es) s
  = step mode authConfig realtime e s ≫= run mode authConfig realtime es.
Proof. reflexivity. Qed.

Lemma bind_some {A B : Type} (x : A) (f : A → option B) : Some x ≫= f = f x.
Proof. reflexivity. Qed.

Lemma step_resume_at (s : State) (l : list Task) (t : Task) (ts : list Task)
  (n : nat) :
  tasks s = l ++ t :: ts → n = length l →
  step mode authConfig realtime (Resume n) s
  = resume mode authConfig t (set_tasks (l ++ ts) s).
Proof. intros E ->. simpl. by rewrite (take_task_middle s l t ts E). Qed.

Lemma step_reply_at (s : State) (l : list Task) (t : Task) (ts : list Task)
  (n : nat) (r : Settled AuthenticationData) :
  tasks s = l ++ t :: ts → n = length l →
  step mode authConfig realtime (Reply n r) s
  = reply authConfig realtime t r (set_tasks (l ++ ts) s).
Proof. intros E ->. simpl. by rewrite (take_task_middle s l t ts E). Qed.

Lemma step_advance (dt : Z) (s : State) :
  0 ≤ dt →
  step mode authConfig realtime (Advance dt) s = Some (set_now (now s + dt) s).
Proof. intros H. simpl. by apply Z.leb_le in H as ->. Qed.

(** ** [getToken] on a record without [expires_at] *)

(** With a falsy [expires_at] the expiry check never starts a refresh, be
    one in flight or not, whatever the clock reads. *)
Lemma refreshIfExpired_without_expires_at (c : nat)
  (authData : option AuthenticationData) (s : State) :
  truthyZ (authData ≫= expires_at) = false →
  refreshIfExpired_afterGet authConfig c authData s = activeRefresh c s.
Proof.
  intros H. unfold refreshIfExpired_afterGet. rewrite H. simpl.
  by rewrite orb_true_r.
Qed.

(** A whole [getToken()] on a session that holds a record without
    [expires_at] and has no refresh in flight, with the clock moving
    between the turns: it resolves to the stored access token and sends
    nothing. *)
Lemma getToken_passthrough (s : State) (c : nat) (d1 d2 d3 : Z) :
  refreshPromise s = None →
  truthyZ (storage s ≫= expires_at) = false →
  0 ≤ d1 → 0 ≤ d2 → 0 ≤ d3 →
  let i := length (tasks s) in
  ∃ s',
    run mode authConfig realtime
      [CallGetToken c; Advance d1; Resume i; Advance d2; Resume i;
       Advance d3; Resume i; Resume i] s = Some s'
    ∧ results s'
      = results s ++ [(c, Resolved (VToken (storage s ≫= access_token)))]
    ∧ requests s' = requests s
    ∧ tasks s' = tasks s
    ∧ storage s' = storage s
    ∧ timers s' = timers s
    ∧ refreshPromise s' = None.
Proof.
  intros Hp Hexp H1 H2 H3 i. subst i.
  rewrite run_cons.
  change (step mode authConfig realtime (CallGetToken c) s)
    with (Some (getToken c s)).
  rewrite bind_some, run_cons, step_advance, bind_some, run_cons by done.
  erewrite (step_resume_at _ (tasks s)) by (simpl; reflexivity).
  cbn [resume].
  rewrite refreshIfExpired_without_expires_at, bind_some by done.
  rewrite run_cons, step_advance, bind_some, run_cons by done.
  erewrite (step_resume_at _ (tasks s))
    by (simpl; rewrite ?app_nil_r; reflexivity).
  cbn [resume]. simpl (refreshPromise _). rewrite Hp.
  cbn [activeRefresh_afterAwait].
  rewrite bind_some, run_cons, step_advance, bind_some, run_cons by done.
  erewrite (step_resume_at _ (tasks s))
    by (simpl; rewrite ?app_nil_r; reflexivity).
  cbn [resume]. rewrite bind_some, run_cons.
  erewrite (step_resume_at _ (tasks s))
    by (simpl; rewrite ?app_nil_r; reflexivity).
  cbn [resume]. rewrite bind_some. cbn [run].
  eexists. split; [reflexivity|]. simpl.
  rewrite !app_nil_r. done.
Qed.

(** The same call when [refreshPromise] still holds a promise that was
    fulfilled: [getToken] awaits it, clears the variable and goes on as
    before. *)
Lemma getToken_passthrough_fulfilled (s : State) (c : nat) (d1 d2 d3 : Z)
  (p : positive) (d : AuthenticationData) :
  refreshPromise s = Some p →
  promises s !! p = Some (Resolved d) →
  truthyZ (storage s ≫= expires_at) = false →
  0 ≤ d1 → 0 ≤ d2 → 0 ≤ d3 →
  let i := length (tasks s) in
  ∃ s',
    run mode authConfig realtime
      [CallGetToken c; Advance d1; Resume i; Advance d2; Resume i;
       Advance d3; Resume i; Resume i] s = Some s'
    ∧ results s'
      = results s ++ [(c, Resolved (VToken (storage s ≫= access_token)))]
    ∧ requests s' = requests s
    ∧ tasks s' = tasks s
    ∧ storage s' = storage s
    ∧ timers s' = timers s
    ∧ refreshPromise s' = None.
Proof.
  intros Hp Hprom Hexp H1 H2 H3 i. subst i.
  rewrite run_cons.
  change (step mode authConfig realtime (CallGetToken c) s)
    with (Some (getToken c s)).
  rewrite bind_some, run_cons, step_advance, bind_some, run_cons by done.
  erewrite (step_resume_at _ (tasks s)) by (simpl; reflexivity).
  cbn [resume].
  rewrite refreshIfExpired_without_expires_at, bind_some by done.
  rewrite run_cons, step_advance, bind_some, run_cons by done.
  erewrite (step_resume_at _ (tasks s))
    by (simpl; rewrite ?app_nil_r; reflexivity).
  cbn [resume]. simpl (refreshPromise _). rewrite Hp.
  cbn [activeRefresh_afterAwait]. simpl (promises _). rewrite Hprom.
  rewrite bind_some, run_cons, step_advance, bind_some, run_cons by done.
  erewrite (step_resume_at _ (tasks s))
    by (simpl; rewrite ?app_nil_r; reflexivity).
  cbn [resume]. rewrite bind_some, run_cons.
  erewrite (step_resume_at _ (tasks s))
    by (simpl; rewrite ?app_nil_r; reflexivity).
  cbn [resume]. rewrite bind_some. cbn [run].
  eexists. split; [reflexivity|]. simpl.
  rewrite !app_nil_r. done.
Qed.

(** A [getToken()] on a session whose [refreshPromise] holds a rejected
    promise: whatever is stored, the call awaits that promise and is
    rejected with its error; the [finally] clears the variable.  Nothing
    is sent and the store is not touched. *)
Lemma getToken_rethrows (s : State) (c : nat) (d1 d2 : Z) (p : positive)
  (err : string) :
  refreshPromise s = Some p →
  promises s !! p = Some (Rejected err) →
  0 ≤ d1 → 0 ≤ d2 →
  let i := length (tasks s) in
  ∃ s',
    run mode authConfig realtime
      [CallGetToken c; Advance d1; Resume i; Advance d2; Resume i] s
    = Some s'
    ∧ results s' = results s ++ [(c, Rejected err)]
    ∧ requests s' = requests s
    ∧ tasks s' = tasks s
    ∧ storage s' = storage s
    ∧ timers s' = timers s
    ∧ refreshPromise s' = None.
Proof.
  intros Hp Hprom H1 H2 i. subst i.
  rewrite run_cons.
  change (step mode authConfig realtime (CallGetToken c) s)
    with (Some (getToken c s)).
  rewrite bind_some, run_cons, step_advance, bind_some, run_cons by done.
  erewrite (step_resume_at _ (tasks s)) by (simpl; reflexivity).
  cbn [resume]. unfold refreshIfExpired_afterGet at 1.
  simpl (refreshPromise _). rewrite Hp. simpl (bool_decide _ || _). cbn iota.
  rewrite bind_some.
  rewrite run_cons, step_advance, bind_some, run_cons by done.
  erewrite (step_resume_at _ (tasks s))
    by (simpl; rewrite ?app_nil_r; reflexivity).
  cbn [resume]. simpl (refreshPromise _). rewrite Hp.
  cbn [activeRefresh_afterAwait]. simpl (promises _). rewrite Hprom.
  rewrite bind_some. cbn [run].
  eexists. split; [reflexivity|]. simpl.
  rewrite !app_nil_r. done.
Qed.

(** [getToken()] on a record without [expires_at], for either thing
    [await refreshPromise] can meet. *)
Lemma getToken_without_expires_at (s : State) (c : nat) (d1 d2 d3 : Z) :
  truthyZ (storage s ≫= expires_at) = false →
  0 ≤ d1 → 0 ≤ d2 → 0 ≤ d3 →
  let i := length (tasks s) in
  (refresh_not_failed s →
   ∃ s',
     run mode authConfig realtime
       [CallGetToken c; Advance d1; Resume i; Advance d2; Resume i;
        Advance d3; Resume i; Resume i] s = Some s'
     ∧ results s'
       = results s ++ [(c, Resolved (VToken (storage s ≫= access_token)))]
     ∧ requests s' = requests s
     ∧ tasks s' = tasks s
     ∧ storage s' = storage s
     ∧ refreshPromise s' = None)
  ∧ (∀ err, refresh_failed err s →
     ∃ s',
       run mode authConfig realtime
         [CallGetToken c; Advance d1; Resume i; Advance d2; Resume i] s
       = Some s'
       ∧ results s' = results s ++ [(c, Rejected err)]
       ∧ requests s' = requests s
       ∧ tasks s' = tasks s
       ∧ storage s' = storage s
       ∧ refreshPromise s' = None).
Proof.
  intros Hexp H1 H2 H3 i. split.
  - unfold refresh_not_failed. intros Hok.
    destruct (refreshPromise s) as [p|] eqn:Hp.
    + destruct Hok as [d Hprom].
      destruct (getToken_passthrough_fulfilled s c d1 d2 d3 p d
                  Hp Hprom Hexp H1 H2 H3)
        as (s' & Hrun & Hres & Hreq & Htasks & Hsto & _ & Hnone).
      exists s'. done.
    + destruct (getToken_passthrough s c d1 d2 d3 Hp Hexp H1 H2 H3)
        as (s' & Hrun & Hres & Hreq & Htasks & Hsto & _ & Hnone).
      exists s'. done.
  - intros err (p & Hp & Hprom).
    destruct (getToken_rethrows s c d1 d2 p err Hp Hprom H1 H2)
      as (s' & Hrun & Hres & Hreq & Htasks & Hsto & _ & Hnone).
    exists s'. done.
Qed.

(** C5 (as the code has it): what switches the refresh off is a null (or
    zero) [expires_at], not a null [expires].  With such a record the
    expiry check of [getToken] starts no refresh in whatever state and at
    whatever time it resumes.  What the call returns is decided by
    [refreshPromise]: when the variable is null, or holds a promise that
    was fulfilled, the call, with the clock advancing arbitrarily between
    its turns, resolves to the stored access token; when it holds a
    rejected promise, as a failed refresh leaves behind, the call is
    rejected with that error.  In both cases no request is sent, the store
    is untouched and [refreshPromise] is null afterwards. *)
Theorem getToken_passes_through_without_expires_at
  (s : State) (c : nat) (d1 d2 d3 : Z) :
  truthyZ (storage s ≫= expires_at) = false →
  0 ≤ d1 → 0 ≤ d2 → 0 ≤ d3 →
  let i := length (tasks s) in
  (∀ s0, refreshIfExpired_afterGet authConfig c (storage s) s0
         = activeRefresh c s0)
  ∧ (refresh_not_failed s →
     ∃ s',
       run mode authConfig realtime
         [CallGetToken c; Advance d1; Resume i; Advance d2; Resume i;
          Advance d3; Resume i; Resume i] s = Some s'
       ∧ results s'
         = results s ++ [(c, Resolved (VToken (storage s ≫= access_token)))]
       ∧ requests s' = requests s
       ∧ tasks s' = tasks s
       ∧ storage s' = storage s
       ∧ refreshPromise s' = None)
  ∧ (∀ err, refresh_failed err s →
     ∃ s',
       run mode authConfig realtime
         [CallGetToken c; Advance d1; Resume i; Advance d2; Resume i] s
       = Some s'
       ∧ results s' = results s ++ [(c, Rejected err)]
       ∧ requests s' = requests s
       ∧ tasks s' = tasks s
       ∧ storage s' = storage s
       ∧ refreshPromise s' = None).
Proof.
  intros Hexp H1 H2 H3 i. split.
  - intros s0. by apply refreshIfExpired_without_expires_at.
  - by apply getToken_without_expires_at.
Qed.

(** C10 (as the code has it): [setToken(tok)] replaces the stored record
    by one holding only [tok]; it arms no timer and cancels none, sends
    nothing, starts nothing and leaves [refreshPromise] as it is.  A
    [getToken()] made afterwards, with no other event in between and
    however far the clock advances, sends no request; it resolves to [tok]
    when [refreshPromise] is null or holds a promise that was fulfilled,
    and is rejected with the old error when [refreshPromise] holds a
    rejected promise, as a failed refresh leaves behind. *)
Theorem setToken_stores_bare_token
  (s : State) (tok : option string) (c : nat) (d1 d2 d3 : Z) :
  0 ≤ d1 → 0 ≤ d2 → 0 ≤ d3 →
  let s1 := setToken tok s in
  let i := length (tasks s) in
  storage s1 = Some (mkData tok None None None)
  ∧ timers s1 = timers s
  ∧ refreshTimeout s1 = refreshTimeout s
  ∧ refreshPromise s1 = refreshPromise s
  ∧ requests s1 = requests s
  ∧ tasks s1 = tasks s
  ∧ (refresh_not_failed s →
     ∃ s',
       run mode authConfig realtime
         [CallGetToken c; Advance d1; Resume i; Advance d2; Resume i;
          Advance d3; Resume i; Resume i] s1 = Some s'
       ∧ results s' = results s ++ [(c, Resolved (VToken tok))]
       ∧ requests s' = requests s
       ∧ storage s' = Some (mkData tok None None None))
  ∧ (∀ err, refresh_failed err s →
     ∃ s',
       run mode authConfig realtime
         [CallGetToken c; Advance d1; Resume i; Advance d2; Resume i] s1
       = Some s'
       ∧ results s' = results s ++ [(c, Rejected err)]
       ∧ requests s' = requests s
       ∧ storage s' = Some (mkData tok None None None)
       ∧ refreshPromise s' = None).
Proof.
  intros H1 H2 H3 s1 i. split_and!; try reflexivity.
  - intros Hok.
    destruct (getToken_without_expires_at s1 c d1 d2 d3) as [Hret _];
      try done.
    destruct (Hret Hok) as (s' & Hrun & Hres & Hreq & _ & Hsto & _).
    exists s'. done.
  - intros err Hfailed.
    destruct (getToken_without_expires_at s1 c d1 d2 d3) as [_ Hthrow];
      try done.
    destruct (Hthrow err Hfailed) as (s' & Hrun & Hres & Hreq & _ & Hsto & Hn).
    exists s'. done.
Qed.

(** ** [logout] *)

Lemma removeEventHandler_gone (h : positive) (s : State) :
  h ∉ listeners (removeEventHandler h s).
Proof.
  unfold removeEventHandler. simpl. rewrite list_elem_of_filter.
  by intros [? _].
Qed.

Lemma clearTimeout_gone (t : positive) (s : State) :
  t ∉ (timers (clearTimeout t s)).*1.
Proof.
  unfold clearTimeout. simpl. rewrite list_elem_of_fmap.
  intros ([t' due] & -> & [? _]%list_elem_of_filter). done.
Qed.

Lemma logout_afterRequest_resolved (c : nat) (d : AuthenticationData)
  (s : State) :
  let s' := logout_afterRequest c (Resolved d) s in
  cleaned_up s s'
  ∧ (timer_tracked s → timers s' = [])
  ∧ results s' = results s ++ [(c, Resolved VUndefined)].
Proof.
  unfold logout_afterRequest. split_and!.
  - split_and!.
    + intros h Hh. rewrite Hh. simpl.
      destruct (refreshTimeout s); apply removeEventHandler_gone.
    + intros t Ht. simpl.
      destruct (realtimeHandler s); simpl; rewrite Ht;
        apply clearTimeout_gone.
    + reflexivity.
  - intros [Hnil | (t & due & Hts & Hrt)]; simpl.
    + destruct (realtimeHandler s); simpl;
        destruct (refreshTimeout s); simpl; by rewrite Hnil.
    + destruct (realtimeHandler s); simpl; rewrite Hrt; simpl;
        by rewrite Hts, cancel_single.
  - simpl. destruct (realtimeHandler s); simpl;
      by destruct (refreshTimeout s).
Qed.

(** C2 (as the code has it): the clean-up of [logout] follows the
    [await] of the logout request.  When the request succeeds, the
    listener is removed, the timer is cancelled (no timer at all stays
    armed in a state the session can reach) and the stored record is
    cleared.  When the request fails, the error goes to the caller and
    nothing is cleaned up: listeners, timers and the stored record are as
    they were. *)
Theorem logout_cleans_up_after_successful_request
  (s : State) (i c : nat) (r : Settled AuthenticationData) :
  tasks s !! i = Some (Logout_request c) →
  ∃ s',
    step mode authConfig realtime (Reply i r) s = Some s'
    ∧ match r with
      | Resolved _ =>
          cleaned_up s s'
          ∧ (timer_tracked s → timers s' = [])
          ∧ results s' = results s ++ [(c, Resolved VUndefined)]
      | Rejected err =>
          results s' = results s ++ [(c, Rejected err)]
          ∧ listeners s' = listeners s
          ∧ timers s' = timers s
          ∧ storage s' = storage s
          ∧ realtimeHandler s' = realtimeHandler s
          ∧ refreshTimeout s' = refreshTimeout s
      end.
Proof.
  intros Htask. simpl. rewrite (take_task_lookup s i _ Htask). simpl.
  eexists. split; [reflexivity|].
  destruct r as [d|err]; [|done].
  exact (logout_afterRequest_resolved c d (set_tasks (delete i (tasks s)) s)).
Qed.

(** ** Joining a refresh in flight *)

Lemma awaitRefresh_get_sends (s : State) (j : nat) (q : positive)
  (authData : option AuthenticationData) :
  tasks s !! j = Some (AwaitRefresh_get q authData) →
  ∃ s',
    step mode authConfig realtime (Resume j) s = Some s'
    ∧ requests s'
      = requests s
        ++ [mkRequest "/auth/refresh" (token_body mode authData)
              (credentials authConfig)]
    ∧ tasks s' = delete j (tasks s) ++ [AwaitRefresh_request q]
    ∧ storage s' = Some unauthenticated.
Proof.
  intros Htask. simpl. rewrite (take_task_lookup s j _ Htask). simpl.
  eexists. split; [reflexivity|]. done.
Qed.

(** C3 (as the code has it): only the expiry check of [getToken] looks at
    [refreshPromise].  When it resumes while a refresh promise [p] is set,
    it starts nothing and sends nothing: it goes on to await [p].
    [refresh()] itself does not look: called in the same state, directly or
    by the timer, it starts another [awaitRefresh] and overwrites
    [refreshPromise] with the new promise; and every [awaitRefresh] that
    was started sends its own request. *)
Theorem getToken_joins_refresh_in_flight
  (s : State) (i c : nat) (authData : option AuthenticationData)
  (p : positive) :
  tasks s !! i = Some (RefreshIfExpired_get c authData) →
  refreshPromise s = Some p →
  (∃ s',
     step mode authConfig realtime (Resume i) s = Some s'
     ∧ tasks s' = delete i (tasks s) ++ [ActiveRefresh_await c (Some p)]
     ∧ requests s' = requests s
     ∧ refreshPromise s' = Some p
     ∧ storage s' = storage s)
  ∧ (∀ c', ∃ s',
       step mode authConfig realtime (CallRefresh c') s = Some s'
       ∧ refreshPromise s' = Some (fresh s)
       ∧ tasks s'
         = tasks s ++ [AwaitRefresh_get (fresh s) (storage s);
                       Refresh_caller c' (fresh s)])
  ∧ refreshPromise (onRefreshTimeout s) = Some (fresh s)
  ∧ tasks (onRefreshTimeout s)
    = tasks s ++ [AwaitRefresh_get (fresh s) (storage s)]
  ∧ (∀ s0 j q authData0,
       tasks s0 !! j = Some (AwaitRefresh_get q authData0) →
       ∃ s',
         step mode authConfig realtime (Resume j) s0 = Some s'
         ∧ requests s'
           = requests s0
             ++ [mkRequest "/auth/refresh" (token_body mode authData0)
                   (credentials authConfig)]
         ∧ tasks s' = delete j (tasks s0) ++ [AwaitRefresh_request q]).
Proof.
  intros Htask Hp. split_and!.
  - simpl. rewrite (take_task_lookup s i _ Htask). simpl.
    unfold refreshIfExpired_afterGet. simpl. rewrite Hp. simpl.
    eexists. split; [reflexivity|]. simpl. by rewrite Hp.
  - intros c'. eexists. split; [reflexivity|]. simpl.
    by rewrite <- app_assoc.
  - reflexivity.
  - reflexivity.
  - intros s0 j q authData0 Hj.
    destruct (awaitRefresh_get_sends s0 j q authData0 Hj)
      as (s' & Hstep & Hreq & Htasks & _).
    exists s'. done.
Qed.

(** ** A refresh that fails *)

Lemma joined_caller_sees_failure (s : State) (j c : nat) (p : positive)
  (err : string) :
  promises s !! p = Some (Rejected err) →
  tasks s !! j = Some (ActiveRefresh_await c (Some p))
  ∨ tasks s !! j = Some (Refresh_caller c p) →
  ∃ s',
    step mode authConfig realtime (Resume j) s = Some s'
    ∧ results s' = results s ++ [(c, Rejected err)]
    ∧ requests s' = requests s
    ∧ storage s' = storage s
    ∧ timers s' = timers s
    ∧ tasks s' = delete j (tasks s).
Proof.
  intros Hp [Htask|Htask]; simpl; rewrite (take_task_lookup s j _ Htask);
    simpl; rewrite Hp; eexists; (split; [reflexivity|done]).
Qed.

(** A refresh from start to failure on an arbitrary session: [refresh()]
    is called, a [getToken()] joins it, the request is sent and fails. *)
Lemma refresh_failure_run (s : State) (c1 c2 : nat) (err : string) :
  let i := length (tasks s) in
  ∃ s',
    run mode authConfig realtime
      [CallRefresh c1; CallGetToken c2; Resume i; Resume (S i);
       Reply (S i) (Rejected err); Resume i; Resume i] s = Some s'
    ∧ results s' = results s ++ [(c1, Rejected err); (c2, Rejected err)]
    ∧ storage s' = Some unauthenticated
    ∧ requests s'
      = requests s
        ++ [mkRequest "/auth/refresh" (token_body mode (storage s))
              (credentials authConfig)]
    ∧ timers s' = timers s
    ∧ refreshTimeout s' = refreshTimeout s
    ∧ tasks s' = tasks s
    ∧ refreshPromise s' = None.
Proof.
  intros i. subst i.
  rewrite run_cons.
  change (step mode authConfig realtime (CallRefresh c1) s)
    with (Some (add_task (Refresh_caller c1 (fresh s)) (refresh s).2)).
  rewrite bind_some, run_cons.
  match goal with
  | |- context [step _ _ _ (CallGetToken c2) ?s1] =>
      change (step mode authConfig realtime (CallGetToken c2) s1)
        with (Some (getToken c2 s1))
  end.
  rewrite bind_some, run_cons.
  erewrite (step_resume_at _ (tasks s))
    by (simpl; rewrite <- ?app_assoc; reflexivity).
  cbn [resume]. rewrite bind_some, run_cons.
  erewrite (step_resume_at _ (tasks s ++ [Refresh_caller c1 (fresh s)]))
    by (simpl; rewrite <- ?app_assoc, ?length_app; simpl;
        first [reflexivity | lia]).
  cbn [resume]. unfold refreshIfExpired_afterGet at 1.
  simpl (refreshPromise _). simpl (bool_decide _ || _).
  cbn iota. rewrite bind_some, run_cons.
  erewrite (step_reply_at _ (tasks s ++ [Refresh_caller c1 (fresh s)]))
    by (simpl; rewrite <- ?app_assoc, ?length_app; simpl;
        first [reflexivity | lia]).
  cbn [reply]. rewrite bind_some, run_cons.
  erewrite (step_resume_at _ (tasks s))
    by (simpl; rewrite <- ?app_assoc; reflexivity).
  cbn [resume]. simpl (promises _ !! _). rewrite lookup_insert_eq.
  rewrite bind_some, run_cons.
  erewrite (step_resume_at _ (tasks s))
    by (simpl; rewrite <- ?app_assoc, ?app_nil_r; reflexivity).
  cbn [resume activeRefresh_afterAwait]. simpl (promises _ !! _).
  rewrite lookup_insert_eq. rewrite bind_some. cbn [run].
  eexists. split; [reflexivity|]. simpl.
  rewrite <- !app_assoc, !app_nil_r. done.
Qed.

(** C7: when the refresh request fails, the refresh promise [p] rejects
    with the error of the request; the failure touches neither the stored
    record, which [awaitRefresh] cleared when it sent the request, nor the
    timers, and it sends and schedules nothing, so nothing retries.
    Whoever awaits [p], a caller of [refresh()] or a [getToken()] that
    joined, is rejected with the same error.  The last part follows one
    such refresh from the calls to the rejections. *)
Theorem refresh_failure_propagates
  (s : State) (i : nat) (p : positive) (err : string) :
  tasks s !! i = Some (AwaitRefresh_request p) →
  (∃ s',
     step mode authConfig realtime (Reply i (Rejected err)) s = Some s'
     ∧ promises s' !! p = Some (Rejected err)
     ∧ storage s' = storage s
     ∧ requests s' = requests s
     ∧ timers s' = timers s
     ∧ refreshTimeout s' = refreshTimeout s
     ∧ tasks s' = delete i (tasks s))
  ∧ (∀ s0 j q authData,
       tasks s0 !! j = Some (AwaitRefresh_get q authData) →
       ∃ s',
         step mode authConfig realtime (Resume j) s0 = Some s'
         ∧ tasks s' = delete j (tasks s0) ++ [AwaitRefresh_request q]
         ∧ storage s' = Some unauthenticated)
  ∧ (∀ s1 j c,
       promises s1 !! p = Some (Rejected err) →
       tasks s1 !! j = Some (ActiveRefresh_await c (Some p))
       ∨ tasks s1 !! j = Some (Refresh_caller c p) →
       ∃ s',
         step mode authConfig realtime (Resume j) s1 = Some s'
         ∧ results s' = results s1 ++ [(c, Rejected err)]
         ∧ requests s' = requests s1
         ∧ storage s' = storage s1
         ∧ timers s' = timers s1
         ∧ tasks s' = delete j (tasks s1))
  ∧ (∀ s0 c1 c2,
       let k := length (tasks s0) in
       ∃ s',
         run mode authConfig realtime
           [CallRefresh c1; CallGetToken c2; Resume k; Resume (S k);
            Reply (S k) (Rejected err); Resume k; Resume k] s0 = Some s'
         ∧ results s'
           = results s0 ++ [(c1, Rejected err); (c2, Rejected err)]
         ∧ storage s' = Some unauthenticated
         ∧ requests s'
           = requests s0
             ++ [mkRequest "/auth/refresh" (token_body mode (storage s0))
                   (credentials authConfig)]
         ∧ timers s' = timers s0
         ∧ tasks s' = tasks s0).
Proof.
  intros Htask. split_and!.
  - simpl. rewrite (take_task_lookup s i _ Htask). simpl.
    eexists. split; [reflexivity|]. simpl.
    by rewrite lookup_insert_eq.
  - intros s0 j q authData Hj.
    destruct (awaitRefresh_get_sends s0 j q authData Hj)
      as (s' & Hstep & _ & Htasks & Hsto).
    exists s'. done.
  - intros s1 j c Hp Hj. exact (joined_caller_sees_failure s1 j c p err Hp Hj).
  - intros s0 c1 c2 k.
    destruct (refresh_failure_run s0 c1 c2 err)
      as (s' & Hrun & Hres & Hsto & Hreq & Htim & _ & Htasks & _).
    exists s'. done.
Qed.

(** ** The real-time listener *)

Lemma onMessage_keeps_rotation_token (msg : Message) (s : State) :
  is_auth_ok msg = false →
  realtimeRefresh (onMessage msg s) = realtimeRefresh s
  ∧ connected (onMessage msg s) = connected s.
Proof.
  unfold is_auth_ok, onMessage, sendMessage. intros H.
  repeat (case_bool_decide || case_match); simplify_eq/=; done.
Qed.

Lemma onMessages_keep_rotation_token (between : list Message) (s : State) :
  forallb (λ m, negb (is_auth_ok m)) between = true →
  let s' := foldl (λ s m, onMessage m s) s between in
  realtimeRefresh s' = realtimeRefresh s ∧ connected s' = connected s.
Proof.
  revert s. induction between as [|m ms IH]; intros s H; simpl in *; [done|].
  apply andb_true_iff in H as [Hm Hms]. apply negb_true_iff in Hm.
  destruct (IH (onMessage m s) Hms) as [-> ->].
  by apply onMessage_keeps_rotation_token.
Qed.

Lemma onMessage_token_expired (expired : Message) (s : State) :
  type expired = Some "auth" →
  status expired = Some "error" →
  error_code expired = Some "TOKEN_EXPIRED" →
  onMessage expired s
  = match realtimeRefresh s with
    | Some tok =>
        if truthy (Some tok)
        then default s (sendMessage (AuthRefreshToken tok) s)
        else s
    | None => s
    end.
Proof.
  intros Ht Hs He. unfold onMessage. rewrite Ht, Hs, He.
  by repeat (case_bool_decide; simplify_eq/=).
Qed.

(** Each successful login with the real-time feature registers one more
    listener and makes it the one [logout] removes. *)
Lemma login_installs_one_listener (c : nat) (email password : string)
  (data : AuthenticationData) (s : State) :
  let s' := login_afterRequest authConfig true c email password
              (Resolved data) s in
  ∃ h, listeners s' = listeners s ++ [h] ∧ realtimeHandler s' = Some h.
Proof.
  simpl. unfold sendMessage. simpl.
  assert (listeners (setCredentials authConfig data s) = listeners s) as Hl.
  { unfold setCredentials. destruct (_ && _); [|done].
    simpl. by destruct (refreshTimeout s). }
  destruct (connected (setCredentials authConfig data s)); simpl;
    rewrite Hl; eauto.
Qed.

(** C9: the listener records the [refresh_token] of an auth message with
    status ["ok"]; the token [R] stays recorded over any later messages
    that are not of that kind.  On an auth message with status ["error"]
    and code [TOKEN_EXPIRED] the listener then sends exactly one message,
    [{type: "auth", refresh_token: R}], and it sends nothing when no token
    is recorded.  With the one listener of one login installed, this is
    what the session does on the two inbound messages.  [R] is a token,
    not the empty string, which JavaScript takes for false. *)
Theorem reauth_handshake
  (s : State) (ok expired : Message) (between : list Message) (R : string) :
  connected s = true →
  type ok = Some "auth" → status ok = Some "ok" →
  msg_refresh_token ok = Some R → R ≠ EmptyString →
  forallb (λ m, negb (is_auth_ok m)) between = true →
  type expired = Some "auth" → status expired = Some "error" →
  error_code expired = Some "TOKEN_EXPIRED" →
  let s1 := onMessage ok s in
  let s2 := foldl (λ s m, onMessage m s) s1 between in
  realtimeRefresh s1 = Some R
  ∧ outbox s1 = outbox s
  ∧ outbox (onMessage expired s2) = outbox s2 ++ [AuthRefreshToken R]
  ∧ (∀ s0, realtimeRefresh s0 = None →
           outbox (onMessage expired s0) = outbox s0)
  ∧ (∀ h, listeners s = [h] →
          ∃ s',
            run mode authConfig realtime [Inbound ok; Inbound expired] s
            = Some s'
            ∧ outbox s' = outbox s ++ [AuthRefreshToken R]).
Proof.
  intros Hconn Ht Hs Htok HR Hbetween Ht' Hs' He' s1 s2.
  assert (onMessage ok s = set_realtimeRefresh (Some R) s) as Hok.
  { unfold onMessage. rewrite Ht, Hs, Htok.
    by repeat (case_bool_decide; simplify_eq/=). }
  assert (truthy (Some R) = true) as Htruthy.
  { simpl. by destruct (String.eqb_spec R EmptyString). }
  assert (∀ s3, realtimeRefresh s3 = Some R → connected s3 = true →
            onMessage expired s3
            = set_outbox (outbox s3 ++ [AuthRefreshToken R]) s3) as Hsend.
  { intros s3 Hr Hc. rewrite onMessage_token_expired by done.
    rewrite Hr, Htruthy. unfold sendMessage. by rewrite Hc. }
  split_and!.
  - subst s1. by rewrite Hok.
  - subst s1. by rewrite Hok.
  - destruct (onMessages_keep_rotation_token between s1 Hbetween) as [Hr Hc].
    fold s2 in Hr, Hc. rewrite Hsend; [done| |].
    + rewrite Hr. subst s1. by rewrite Hok.
    + rewrite Hc. subst s1. by rewrite Hok.
  - intros s0 Hnone. rewrite onMessage_token_expired by done.
    by rewrite Hnone.
  - intros h Hh. rewrite run_cons. simpl (step _ _ _ _ _).
    rewrite Hconn, bind_some. unfold dispatch at 1. rewrite Hh.
    cbn [foldl]. rewrite Hok, run_cons. simpl (step _ _ _ _ _).
    rewrite Hconn, bind_some. unfold dispatch. simpl (listeners _).
    rewrite Hh. cbn [foldl]. rewrite Hsend by done.
    eexists. split; [reflexivity|done].
Qed.

End AuthFacts.

(** * Concrete runs *)

Section Runs.

Import Auth.



(** A lifetime the host timer does not hold: the login with [long_lived]
    arms a timer that is due one millisecond later, and the refresh request
    goes out then, more than 34 days early. *)
Lemma long_lifetime_refreshes_at_once :
  ∃ s0 s',
    run json defaultConfigValues false (login_events long_lived)
      (init 1000 false) = Some s0
    ∧ timers s0 = [(1%positive, 1001)]
    ∧ run json defaultConfigValues false [Advance 1; Fire 1; Resume 0] s0
      = Some s'
    ∧ requests s'
      = requests s0
        ++ [mkRequest "/auth/refresh"
              [("mode", "json"); ("refresh_token", "refresh-1")] None].
Proof.
  eexists _, _. split; [vm_compute; reflexivity|].
  split; [reflexivity|]. split; [vm_compute; reflexivity|]. reflexivity.
Qed.

(** C4, as stated, fails: the server reports no lifetime and the stored
    record still has an [expires_at], the time of the call. *)
Lemma setCredentials_null_expires_sets_expires_at :
  expires issued_without_expiry = None
  ∧ storage (setCredentials defaultConfigValues issued_without_expiry
               (init 1000 false))
    = Some (mkData (Some "access-1") (Some "refresh-1") None (Some 1000)).
Proof. vm_compute. done. Qed.

Lemma getToken_passes_through_without_expires_at_witness :
  ∃ s',
    run json defaultConfigValues true
      [CallGetToken 7; Advance 60000; Resume 0; Advance 60000; Resume 0;
       Advance 60000; Resume 0; Resume 0] holding_static_token = Some s'
    ∧ results s' = [(7%nat, Resolved (VToken (Some "static")))]
    ∧ requests s' = []
    ∧ tasks s' = []
    ∧ storage s' = storage holding_static_token
    ∧ refreshPromise s' = None.
Proof.
  destruct (getToken_passes_through_without_expires_at json
              defaultConfigValues true holding_static_token 7
              60000 60000 60000) as (_ & H & _); [reflexivity|lia|lia|lia|].
  exact (H I).
Defined.

(** C5, as stated, fails: after a login whose answer carries no lifetime
    the stored record has [expires] null, and the first [getToken()] sends
    a refresh request and leaves the store without a token. *)
Lemma getToken_null_expires_triggers_refresh :
  ∃ s0 s',
    run json defaultConfigValues false (login_events issued_without_expiry)
      (init 1000 false) = Some s0
    ∧ storage s0
      = Some (mkData (Some "access-1") (Some "refresh-1") None (Some 1000))
    ∧ refreshPromise s0 = None
    ∧ run json defaultConfigValues false
        [CallGetToken 1; Resume 0; Resume 0] s0 = Some s'
    ∧ requests s'
      = requests s0
        ++ [mkRequest "/auth/refresh"
              [("mode", "json"); ("refresh_token", "refresh-1")] None]
    ∧ storage s' = Some unauthenticated.
Proof.
  eexists _, _. split; [vm_compute; reflexivity|].
  split; [reflexivity|]. split; [reflexivity|].
  split; [vm_compute; reflexivity|]. split; reflexivity.
Qed.

Lemma setToken_stores_bare_token_witness :
  ∃ s',
    run json defaultConfigValues true
      [CallGetToken 7; Advance 0; Resume 0; Advance 0; Resume 0]
      (setToken (Some "static") relogged_after_failed_refresh) = Some s'
    ∧ results s' = results relogged_after_failed_refresh ++ [(7%nat, Rejected "401")]
    ∧ requests s' = requests relogged_after_failed_refresh
    ∧ storage s' = Some (mkData (Some "static") None None None)
    ∧ refreshPromise s' = None.
Proof.
  destruct (setToken_stores_bare_token json defaultConfigValues true
              relogged_after_failed_refresh (Some "static") 7 0 0 0)
    as (_ & _ & _ & _ & _ & _ & _ & H); [lia|lia|lia|].
  apply (H "401"). exists 3%positive. split; reflexivity.
Defined.

(** C10, as stated, fails: the timer armed by the login is still armed
    after [setToken]; when it comes due it starts a refresh, which wipes
    the token that was set and sends a refresh request. *)
Lemma setToken_keeps_armed_timer :
  ∃ s0 s',
    run json defaultConfigValues false
      (login_events issued ++ [CallSetToken (Some "static")])
      (init 1000 false) = Some s0
    ∧ storage s0 = Some (mkData (Some "static") None None None)
    ∧ timers s0 = [(1%positive, 871000)]
    ∧ run json defaultConfigValues false
        [Advance 870000; Fire 1; Resume 0] s0 = Some s'
    ∧ requests s'
      = requests s0 ++ [mkRequest "/auth/refresh" [("mode", "json")] None]
    ∧ storage s' = Some unauthenticated.
Proof.
  eexists _, _. split; [vm_compute; reflexivity|].
  split; [reflexivity|]. split; [reflexivity|].
  split; [vm_compute; reflexivity|]. split; reflexivity.
Qed.

Lemma logout_cleans_up_after_successful_request_witness :
  ∃ s',
    step json defaultConfigValues true (Reply 0 (Resolved unauthenticated))
      logging_out = Some s'
    ∧ cleaned_up logging_out s'
      ∧ (timer_tracked logging_out → timers s' = [])
      ∧ results s' = results logging_out ++ [(1%nat, Resolved VUndefined)].
Proof.
  apply (logout_cleans_up_after_successful_request json defaultConfigValues
           true logging_out 0 1 (Resolved unauthenticated)).
  vm_compute. reflexivity.
Defined.

(** C2, as stated, fails: a session logs in with the real-time feature on,
    then logs out while the network is down.  The logout call rejects, and
    the listener installed by the login is still registered, its timer is
    still armed and the credentials are still stored. *)
Lemma logout_failure_skips_cleanup :
  ∃ s0 s',
    run json defaultConfigValues true (login_events issued) (init 1000 true)
    = Some s0
    ∧ realtimeHandler s0 = Some 2%positive
    ∧ refreshTimeout s0 = Some 1%positive
    ∧ run json defaultConfigValues true
        [CallLogout 1; Resume 0; Reply 0 (Rejected "Network Error")] s0
      = Some s'
    ∧ results s' = results s0 ++ [(1%nat, Rejected "Network Error")]
    ∧ listeners s' = [2%positive]
    ∧ timers s' = [(1%positive, 871000)]
    ∧ storage s'
      = Some (mkData (Some "access-1") (Some "refresh-1") (Some 900000)
                (Some 901000))
    ∧ ¬ cleaned_up s0 s'.
Proof.
  eexists _, _. split; [vm_compute; reflexivity|].
  split; [reflexivity|]. split; [reflexivity|].
  split; [vm_compute; reflexivity|].
  split_and!; try reflexivity.
  intros (_ & _ & Hsto). discriminate Hsto.
Qed.

Lemma getToken_joins_refresh_in_flight_witness :
  ∃ s',
    step json defaultConfigValues true (Resume 2) joining = Some s'
    ∧ tasks s'
      = delete 2%nat (tasks joining)
        ++ [ActiveRefresh_await 2 (Some 3%positive)]
    ∧ requests s' = requests joining
    ∧ refreshPromise s' = Some 3%positive
    ∧ storage s' = storage joining.
Proof.
  apply (getToken_joins_refresh_in_flight json defaultConfigValues true
           joining 2 2 (storage joining) 3%positive);
    vm_compute; reflexivity.
Defined.

(** C3, as stated, fails: [refresh()] is called twice in a row on a new
    session.  At the second call the promise of the first is set and
    still pending; the second call gets a promise of its own, and after
    both [awaitRefresh]es resumed two refresh requests are on the network
    at once. *)
Lemma refresh_twice_sends_two_requests :
  ∃ s1 s2 s',
    run json defaultConfigValues false [CallRefresh 1] (init 1000 false)
    = Some s1
    ∧ refreshPromise s1 = Some 1%positive
    ∧ promises s1 !! 1%positive = None
    ∧ run json defaultConfigValues false [CallRefresh 2] s1 = Some s2
    ∧ refreshPromise s2 = Some 2%positive
    ∧ tasks s2
      = [AwaitRefresh_get 1 None; Refresh_caller 1 1;
         AwaitRefresh_get 2 None; Refresh_caller 2 2]
    ∧ run json defaultConfigValues false [Resume 0; Resume 1] s2 = Some s'
    ∧ tasks s'
      = [Refresh_caller 1 1; Refresh_caller 2 2;
         AwaitRefresh_request 1; AwaitRefresh_request 2]
    ∧ outstanding_refreshes s' = 2%nat
    ∧ requests s'
      = [mkRequest "/auth/refresh" [("mode", "json")] None;
         mkRequest "/auth/refresh" [("mode", "json")] None].
Proof.
  eexists _, _, _. split; [vm_compute; reflexivity|].
  split; [reflexivity|]. split; [reflexivity|].
  split; [vm_compute; reflexivity|].
  split; [reflexivity|]. split; [reflexivity|].
  split; [vm_compute; reflexivity|].
  split_and!; reflexivity.
Qed.

Lemma refresh_failure_propagates_witness :
  ∃ s',
    step json defaultConfigValues true (Reply 1 (Rejected "Network Error"))
      refreshing = Some s'
    ∧ promises s' !! 3%positive = Some (Rejected "Network Error")
    ∧ storage s' = storage refreshing
    ∧ requests s' = requests refreshing
    ∧ timers s' = timers refreshing
    ∧ refreshTimeout s' = refreshTimeout refreshing
    ∧ tasks s' = delete 1%nat (tasks refreshing).
Proof.
  apply (refresh_failure_propagates json defaultConfigValues true
           refreshing 1 3%positive "Network Error").
  vm_compute. reflexivity.
Defined.

Lemma reauth_handshake_witness :
  outbox (onMessage token_expired_message
            (onMessage (ok_message "R") (init 1000 true)))
  = [AuthRefreshToken "R"].
Proof.
  apply (reauth_handshake json defaultConfigValues true (init 1000 true)
           (ok_message "R") token_expired_message [] "R"); done.
Defined.

End Runs.

(** * Further properties of the mutex *)

Section MutexAcquisition.

Import Mutex.

Variable key : string.
Variable expiresMs : Z.
Variable callback : World → Settled unit * World.
Variable sleep : nat → World → World.

Lemma poll_skips (w0 : World) (k left retries : nat) (tr : list Action) :
  (∀ i, (retries ≤ i < retries + k)%nat →
        refused_at key expiresMs sleep w0 i) →
  poll key expiresMs callback sleep (k + left) retries
    (world_at sleep retries w0) tr
  = poll key expiresMs callback sleep left (retries + k)
      (world_at sleep (retries + k) w0)
      (tr ++ concat (replicate k (idle_round key))).
Proof.
  revert retries tr. induction k as [|k IH]; intros retries tr Href.
  - simpl. by rewrite Nat.add_0_r, app_nil_r.
  - change (S k + left)%nat with (S (k + left)). cbn [poll].
    rewrite (Href retries) by lia.
    change (sleep retries (world_at sleep retries w0))
      with (world_at sleep (S retries) w0).
    rewrite IH by (intros i Hi; apply Href; lia).
    replace (S retries + k)%nat with (retries + S k)%nat by lia.
    f_equal. simpl. by rewrite <- !app_assoc.
Qed.

Lemma poll_acquires (left retries : nat) (w : World) (tr : list Action) :
  acquirable expiresMs (getItem (internalKey key) w) w = true →
  let v := jsString (now w + expiresMs) in
  let held := setItem (internalKey key) v w in
  poll key expiresMs callback sleep left retries w tr
  = mkRun (callback held).1
      (tr ++ [AGet (internalKey key); ASet (internalKey key) v; ACallback;
              ARemove (internalKey key)])
      (removeItem (internalKey key) (callback held).2).
Proof.
  intros Hacq v held. destruct left; cbn [poll]; rewrite Hacq;
    fold v; fold held; destruct (callback held) as [r w2]; simpl;
    by rewrite <- app_assoc.
Qed.

(** X1: the lock is taken at the first attempt whose guard holds.  When
    the guard is refused at the attempts before the [k]-th and holds at the
    [k]-th, with [k] below [maxRetries], then [localStorageLock] has slept
    [k] times, writes a record that reads back as the clock plus
    [expiresMs], runs the callback once on the world holding that record,
    settles as the callback settles, resolved or rejected, and removes the
    record in either case: afterwards no record is left under the key. *)
Theorem localStorageLock_acquires_at (w : World) (k : nat) :
  (k < maxRetries)%nat →
  (∀ i, (i < k)%nat → refused_at key expiresMs sleep w i) →
  let wk := world_at sleep k w in
  acquirable expiresMs (getItem (internalKey key) wk) wk = true →
  let v := jsString (now wk + expiresMs) in
  let held := setItem (internalKey key) v wk in
  let r := localStorageLock key expiresMs callback sleep w in
  result r = (callback held).1
  ∧ trace r
    = concat (replicate k (idle_round key))
      ++ [AGet (internalKey key); ASet (internalKey key) v; ACallback;
          ARemove (internalKey key)]
  ∧ getItem (internalKey key) held = Some v
  ∧ jsNumber v = Some (now wk + expiresMs)
  ∧ final r = removeItem (internalKey key) (callback held).2
  ∧ getItem (internalKey key) (final r) = None.
Proof.
  intros Hk Href wk Hacq v held r.
  assert (r = mkRun (callback held).1
                (concat (replicate k (idle_round key))
                 ++ [AGet (internalKey key); ASet (internalKey key) v;
                     ACallback; ARemove (internalKey key)])
                (removeItem (internalKey key) (callback held).2)) as ->.
  { subst r. unfold localStorageLock, maxRetries in *. simpl Nat.pred.
    replace 9%nat with (k + (9 - k))%nat by lia.
    change w with (world_at sleep 0 w) at 1.
    rewrite poll_skips by (intros i Hi; apply Href; lia).
    simpl (0 + k)%nat. fold wk.
    by rewrite (poll_acquires (9 - k) k wk _ Hacq). }
  cbn [result trace final]. split_and!; try done.
  - unfold held, getItem, setItem. simpl. apply lookup_insert_eq.
  - apply jsNumber_jsString.
  - unfold getItem, removeItem. simpl. apply lookup_delete_eq.
Qed.

End MutexAcquisition.

Section MutexAccounting.

Import Mutex.

Lemma count_app (p : Action → bool) (a b : list Action) :
  count p (a ++ b) = (count p a + count p b)%nat.
Proof. unfold count. by rewrite filter_app, length_app. Qed.

Lemma count_cons (p : Action → bool) (a : Action) (l : list Action) :
  count p (a :: l) = ((if p a then 1 else 0) + count p l)%nat.
Proof.
  unfold count. destruct (p a) eqn:E.
  - by rewrite filter_cons_True.
  - rewrite filter_cons_False; [done|]. by rewrite E.
Qed.

Lemma count_nil (p : Action → bool) : count p [] = 0%nat.
Proof. reflexivity. Qed.

Variable key : string.
Variable expiresMs : Z.
Variable callback : World → Settled unit * World.
Variable sleep : nat → World → World.

Lemma poll_accounting (left retries : nat) (w : World) (tr : list Action) :
  let r := poll key expiresMs callback sleep left retries w tr in
  ∃ n : nat,
    (n ≤ 1)%nat
    ∧ count is_callback (trace r) = (count is_callback tr + n)%nat
    ∧ count is_set (trace r) = (count is_set tr + n)%nat
    ∧ count is_remove (trace r) = (count is_remove tr + n)%nat
    ∧ (count is_sleep (trace r) ≤ count is_sleep tr + S left)%nat
    ∧ (n = 0%nat →
       result r = Resolved ()
       ∧ count is_sleep (trace r) = (count is_sleep tr + S left)%nat).
Proof.
  revert retries w tr. induction left as [|left IH]; intros retries w tr;
    cbn [poll];
    destruct (acquirable expiresMs (getItem (internalKey key) w) w).
  - destruct (callback _) as [r w2]. exists 1%nat. simpl.
    rewrite !count_app, !count_cons, !count_nil. simpl.
    split_and!; lia.
  - exists 0%nat. simpl.
    rewrite !count_app, !count_cons, !count_nil. simpl.
    split_and!; try lia. intros _. split; [done|lia].
  - destruct (callback _) as [r w2]. exists 1%nat. simpl.
    rewrite !count_app, !count_cons, !count_nil. simpl.
    split_and!; lia.
  - destruct (IH (S retries) (sleep retries w)
                ((tr ++ [AGet (internalKey key)]) ++ [ASleep timeout]))
      as (n & Hn & Hcb & Hset & Hrem & Hsl & Hzero).
    exists n.
    rewrite !count_app, !count_cons, !count_nil in Hcb, Hset, Hrem, Hsl, Hzero.
    simpl in Hcb, Hset, Hrem, Hsl, Hzero.
    split_and!; try lia.
    intros Hz. destruct (Hzero Hz) as [Hres Hcnt]. split; [done|lia].
Qed.

(** X2: whatever the record, the clock, the other contexts and the
    callback do, one call of [localStorageLock] runs the callback at most
    once; it writes the record exactly as often as it runs the callback and
    removes it exactly as often, so it never removes a record without
    having written one; it sleeps at most [maxRetries] times; when the
    callback did not run it slept exactly [maxRetries] times and resolves;
    so a rejection can only be the callback's. *)
Theorem localStorageLock_accounting (w : World) :
  let r := localStorageLock key expiresMs callback sleep w in
  (count is_callback (trace r) ≤ 1)%nat
  ∧ count is_set (trace r) = count is_callback (trace r)
  ∧ count is_remove (trace r) = count is_callback (trace r)
  ∧ (count is_sleep (trace r) ≤ maxRetries)%nat
  ∧ (count is_callback (trace r) = 0%nat →
     result r = Resolved () ∧ count is_sleep (trace r) = maxRetries)
  ∧ (∀ err, result r = Rejected err → count is_callback (trace r) = 1%nat).
Proof.
  intros r. subst r. unfold localStorageLock.
  destruct (poll_accounting (Nat.pred maxRetries) 0 w [])
    as (n & Hn & Hcb & Hset & Hrem & Hsl & Hzero).
  rewrite !count_nil in *.
  unfold maxRetries in *. simpl Nat.pred in *.
  split_and!; try lia.
  - intros Hz. apply Hzero. lia.
  - intros err Herr. destruct n as [|[|n]]; [|lia|lia].
    destruct (Hzero eq_refl) as [Hres _]. congruence.
Qed.

End MutexAccounting.

Section MutexExclusion.

Import Mutex.

(** X3: while the record that another holder wrote at time [t0] with the
    same lease is in place at every attempt, and the clock does not read
    less than [t0], a contender never runs its callback: it polls
    [maxRetries] times, leaves the holder's record alone and resolves.
    This is so whether or not the lease has run out by then. *)
Theorem localStorageLock_excluded_by_holder
  (key : string) (expiresMs : Z) (callback : World → Settled unit * World)
  (sleep : nat → World → World) (w : World) (t0 : Z) :
  (∀ i, (i < maxRetries)%nat →
        getItem (internalKey key) (world_at sleep i w)
        = Some (jsString (t0 + expiresMs))
        ∧ t0 ≤ now (world_at sleep i w)) →
  let r := localStorageLock key expiresMs callback sleep w in
  result r = Resolved ()
  ∧ count is_callback (trace r) = 0%nat
  ∧ count is_remove (trace r) = 0%nat
  ∧ count is_sleep (trace r) = maxRetries
  ∧ final r = world_at sleep maxRetries w.
Proof.
  intros Hheld r.
  assert (r = mkRun (Resolved ())
                (concat (replicate maxRetries (idle_round key)))
                (world_at sleep maxRetries w)) as ->.
  { subst r. unfold localStorageLock.
    apply (poll_refused key expiresMs callback sleep w 9 0 []).
    intros i Hi. destruct (Hheld i) as [Hrec Hclock].
    { unfold maxRetries. lia. }
    unfold refused_at. simpl. rewrite Hrec.
    by apply written_lease_never_acquirable. }
  cbn [result trace final]. split_and!; reflexivity.
Qed.

Lemma localStorageLock_excluded_by_holder_witness :
  result (localStorageLock "auth_refresh" 100 succeeding ticking stale_world)
  = Resolved ()
  ∧ count is_callback
      (trace (localStorageLock "auth_refresh" 100 succeeding ticking
                stale_world)) = 0%nat.
Proof.
  destruct (localStorageLock_excluded_by_holder "auth_refresh" 100
              succeeding ticking stale_world 900) as (H1 & H2 & _).
  - intros i Hi. unfold maxRetries in Hi.
    do 10 (destruct i as [|i]; [vm_compute; split; [reflexivity|discriminate]|]).
    lia.
  - split; [exact H1|exact H2].
Defined.

Lemma localStorageLock_acquires_at_witness :
  result (localStorageLock "auth_refresh" 100 failing
            released_in_second_sleep stale_world)
  = Rejected "refresh failed"
  ∧ getItem (internalKey "auth_refresh")
      (final (localStorageLock "auth_refresh" 100 failing
                released_in_second_sleep stale_world)) = None.
Proof.
  destruct (localStorageLock_acquires_at "auth_refresh" 100 failing
              released_in_second_sleep stale_world 2)
    as (H1 & _ & _ & _ & _ & H2).
  - unfold maxRetries. lia.
  - intros i Hi. do 2 (destruct i as [|i]; [vm_compute; reflexivity|]). lia.
  - vm_compute. reflexivity.
  - split; [exact H1|exact H2].
Defined.

End MutexExclusion.

(** * Further properties of the authentication session *)

Section AuthConcurrency.

Import Auth.

Variable mode : AuthenticationMode.
Variable authConfig : AuthenticationConfig.
Variable realtime : bool.

Lemma frame_refl (s : State) : frame s s.
Proof. by repeat split. Qed.

Lemma frame_trans (s1 s2 s3 : State) :
  frame s1 s2 → frame s2 s3 → frame s1 s3.
Proof. unfold frame. intros H1 H2. destruct_and!. split_and!; congruence. Qed.

Lemma run_app (es1 es2 : list Event) (s : State) :
  run mode authConfig realtime (es1 ++ es2) s
  = run mode authConfig realtime es1 s ≫= run mode authConfig realtime es2.
Proof.
  revert s. induction es1 as [|e es1 IH]; intros s; [done|].
  simpl. destruct (step mode authConfig realtime e s) as [s1|]; [|done].
  simpl. apply IH.
Qed.

Lemma bind_singletons {A B : Type} (f : A → B) (l : list A) :
  l ≫= (λ x, [f x]) = f <$> l.
Proof. induction l as [|x l IH]; [done|]. csimpl. by rewrite IH. Qed.

Lemma bind_nils {A B : Type} (l : list A) : l ≫= (λ _ : A, @nil B) = [].
Proof. induction l as [|x l IH]; [done|]. csimpl. by rewrite IH. Qed.

(** The functions [A c], for [c] in [cs], sit in the pool one after the
    other; each is resumed in turn. *)
Lemma rotate_run (A : nat → Task) (out : nat → list Task)
  (res : nat → list (nat * Settled Value)) (Pre Post : State → Prop) :
  (∀ c s l ts, Pre s → tasks s = l ++ A c :: ts →
     ∃ s', step mode authConfig realtime (Resume (length l)) s = Some s'
           ∧ frame s s'
           ∧ tasks s' = l ++ ts ++ out c
           ∧ results s' = results s ++ res c
           ∧ Pre s' ∧ Post s') →
  ∀ cs s l extra, Pre s → tasks s = l ++ (A <$> cs) ++ extra →
    ∃ s', run mode authConfig realtime (resumes (length cs) (length l)) s
          = Some s'
          ∧ frame s s'
          ∧ tasks s' = l ++ extra ++ (cs ≫= out)
          ∧ results s' = results s ++ (cs ≫= res)
          ∧ Pre s' ∧ (cs ≠ [] → Post s').
Proof.
  intros Hstep cs. induction cs as [|c cs IH]; intros s l extra Hpre Ht.
  - exists s. simpl in *. rewrite !app_nil_r.
    split_and!; first [done | apply frame_refl].
  - destruct (Hstep c s l (fmap (M:=list) A cs ++ extra) Hpre Ht)
      as (s1 & Hs1 & Hf1 & Ht1 & Hr1 & Hpre1 & Hpost1).
    destruct cs as [|c' cs'].
    + exists s1. simpl in *. rewrite Hs1. simpl.
      rewrite !app_nil_r. split_and!; done.
    + destruct (IH s1 l (extra ++ out c) Hpre1)
        as (s' & Hrun & Hf & Ht' & Hr' & Hpre' & Hpost').
      { rewrite Ht1. by rewrite <- !app_assoc. }
      exists s'. split_and!.
      * change (resumes (length (c :: c' :: cs')) (length l))
          with (Resume (length l) :: resumes (length (c' :: cs')) (length l)).
        by rewrite run_cons, Hs1, bind_some.
      * by eapply frame_trans.
      * rewrite Ht'. change ((c :: c' :: cs') ≫= out)
          with (out c ++ ((c' :: cs') ≫= out)).
        by rewrite <- !app_assoc.
      * rewrite Hr', Hr1. change ((c :: c' :: cs') ≫= res)
          with (res c ++ ((c' :: cs') ≫= res)).
        by rewrite <- !app_assoc.
      * done.
      * intros _. by apply Hpost'.
Qed.

Lemma join_step (authData : option AuthenticationData) (p : positive)
  (c : nat) (s : State) (l ts : list Task) :
  refreshPromise s = Some p →
  tasks s = l ++ RefreshIfExpired_get c authData :: ts →
  ∃ s', step mode authConfig realtime (Resume (length l)) s = Some s'
        ∧ frame s s'
        ∧ tasks s' = l ++ ts ++ [ActiveRefresh_await c (Some p)]
        ∧ results s' = results s ++ []
        ∧ refreshPromise s' = Some p ∧ True.
Proof.
  intros Hp Ht.
  rewrite (step_resume_at mode authConfig realtime s l _ ts (length l) Ht
             eq_refl).
  cbn [resume]. unfold refreshIfExpired_afterGet.
  simpl (refreshPromise _). rewrite Hp. simpl.
  eexists. split; [reflexivity|]. simpl.
  rewrite Hp, app_nil_r, <- app_assoc. split_and!; first [done | by repeat split].
Qed.

Lemma resolved_step (d : AuthenticationData) (p : positive)
  (c : nat) (s : State) (l ts : list Task) :
  promises s !! p = Some (Resolved d) →
  tasks s = l ++ ActiveRefresh_await c (Some p) :: ts →
  ∃ s', step mode authConfig realtime (Resume (length l)) s = Some s'
        ∧ frame s s'
        ∧ tasks s' = l ++ ts ++ [GetToken_resume c]
        ∧ results s' = results s ++ []
        ∧ promises s' !! p = Some (Resolved d)
        ∧ refreshPromise s' = None.
Proof.
  intros Hp Ht.
  rewrite (step_resume_at mode authConfig realtime s l _ ts (length l) Ht
             eq_refl).
  cbn [resume activeRefresh_afterAwait]. simpl (promises _). rewrite Hp.
  eexists. split; [reflexivity|]. simpl.
  rewrite app_nil_r, <- app_assoc. split_and!; first [done | by repeat split].
Qed.

Lemma rejected_step (err : string) (p : positive)
  (c : nat) (s : State) (l ts : list Task) :
  promises s !! p = Some (Rejected err) →
  tasks s = l ++ ActiveRefresh_await c (Some p) :: ts →
  ∃ s', step mode authConfig realtime (Resume (length l)) s = Some s'
        ∧ frame s s'
        ∧ tasks s' = l ++ ts ++ []
        ∧ results s' = results s ++ [(c, Rejected err)]
        ∧ promises s' !! p = Some (Rejected err)
        ∧ refreshPromise s' = None.
Proof.
  intros Hp Ht.
  rewrite (step_resume_at mode authConfig realtime s l _ ts (length l) Ht
             eq_refl).
  cbn [resume activeRefresh_afterAwait]. simpl (promises _). rewrite Hp.
  eexists. split; [reflexivity|]. simpl.
  rewrite app_nil_r. split_and!; first [done | by repeat split].
Qed.

Lemma read_step (stored : option AuthenticationData)
  (c : nat) (s : State) (l ts : list Task) :
  storage s = stored ∧ refreshPromise s = None →
  tasks s = l ++ GetToken_resume c :: ts →
  ∃ s', step mode authConfig realtime (Resume (length l)) s = Some s'
        ∧ frame s s'
        ∧ tasks s' = l ++ ts ++ [GetToken_get c stored]
        ∧ results s' = results s ++ []
        ∧ (storage s' = stored ∧ refreshPromise s' = None) ∧ True.
Proof.
  intros [Hsto Hp] Ht.
  rewrite (step_resume_at mode authConfig realtime s l _ ts (length l) Ht
             eq_refl).
  cbn [resume]. eexists. split; [reflexivity|]. simpl.
  rewrite Hsto, app_nil_r, <- app_assoc. split_and!; first [done | by repeat split].
Qed.

Lemma return_step (data : option AuthenticationData)
  (c : nat) (s : State) (l ts : list Task) :
  refreshPromise s = None →
  tasks s = l ++ GetToken_get c data :: ts →
  ∃ s', step mode authConfig realtime (Resume (length l)) s = Some s'
        ∧ frame s s'
        ∧ tasks s' = l ++ ts ++ []
        ∧ results s'
          = results s ++ [(c, Resolved (VToken (data ≫= access_token)))]
        ∧ refreshPromise s' = None ∧ True.
Proof.
  intros Hp Ht.
  rewrite (step_resume_at mode authConfig realtime s l _ ts (length l) Ht
             eq_refl).
  cbn [resume]. eexists. split; [reflexivity|]. simpl.
  rewrite app_nil_r. split_and!; first [done | by repeat split].
Qed.

(** The calls themselves: each leaves its expiry check in the pool, with
    the record it read. *)
Lemma calls_run (cs : list nat) (s : State) :
  ∃ s', run mode authConfig realtime (CallGetToken <$> cs) s = Some s'
        ∧ frame s s'
        ∧ tasks s'
          = tasks s ++ ((λ c, RefreshIfExpired_get c (storage s)) <$> cs)
        ∧ results s' = results s
        ∧ refreshPromise s' = refreshPromise s
        ∧ fresh s' = fresh s.
Proof.
  revert s. induction cs as [|c cs IH]; intros s.
  - exists s. simpl. rewrite app_nil_r.
    split_and!; first [done | apply frame_refl].
  - destruct (IH (getToken c s)) as (s' & Hrun & Hf & Ht & Hr & Hp & Hfr).
    exists s'. split; [done|].
    split; [eapply frame_trans; [|exact Hf]; by repeat split|].
    split; [rewrite Ht; simpl; by rewrite <- app_assoc|]. done.
Qed.

Lemma setCredentials_keeps (data : AuthenticationData) (s : State) :
  let s' := setCredentials authConfig data s in
  tasks s' = tasks s ∧ results s' = results s ∧ requests s' = requests s
  ∧ refreshPromise s' = refreshPromise s ∧ promises s' = promises s
  ∧ now s' = now s ∧ listeners s' = listeners s ∧ outbox s' = outbox s
  ∧ connected s' = connected s ∧ realtimeHandler s' = realtimeHandler s
  ∧ realtimeRefresh s' = realtimeRefresh s.
Proof.
  unfold setCredentials. destruct (_ && _); [|done].
  simpl. by destruct (refreshTimeout s).
Qed.

(** The first expiry check finds the record within
    [msRefreshBeforeExpires] of its expiry and no refresh promise: it
    starts the refresh and awaits it. *)
Lemma expired_step (ad : AuthenticationData) (e : Z)
  (c : nat) (s : State) (l ts : list Task) :
  refreshPromise s = None →
  expires_at ad = Some e → e ≠ 0 →
  e < now s + msRefreshBeforeExpires authConfig →
  tasks s = l ++ RefreshIfExpired_get c (Some ad) :: ts →
  ∃ s', step mode authConfig realtime (Resume (length l)) s = Some s'
        ∧ frame s s'
        ∧ tasks s'
          = l ++ ts ++ [AwaitRefresh_get (fresh s) (storage s);
                        ActiveRefresh_await c (Some (fresh s))]
        ∧ results s' = results s
        ∧ refreshPromise s' = Some (fresh s).
Proof.
  intros Hp He Hnz Hlt Ht.
  rewrite (step_resume_at mode authConfig realtime s l _ ts (length l) Ht
             eq_refl).
  cbn [resume]. unfold refreshIfExpired_afterGet.
  simpl (refreshPromise _). rewrite Hp.
  simpl (Some ad ≫= expires_at). rewrite He.
  simpl (now _). simpl (truthyZ _).
  apply Z.eqb_neq in Hnz as ->. apply Z.ltb_lt in Hlt as ->. simpl.
  eexists. split; [reflexivity|]. simpl.
  rewrite <- !app_assoc. split_and!; first [done | by repeat split].
Qed.

(** Up to the point where the one request is on the network. *)
Lemma concurrent_getToken_prefix (s : State) (c : nat) (cs : list nat)
  (ad : AuthenticationData) (e : Z) :
  refreshPromise s = None →
  storage s = Some ad → expires_at ad = Some e → e ≠ 0 →
  e < now s + msRefreshBeforeExpires authConfig →
  let i := length (tasks s) in
  ∃ s' p,
    run mode authConfig realtime
      ((CallGetToken <$> c :: cs) ++ resumes (length (c :: cs)) i
       ++ [Resume i]) s = Some s'
    ∧ tasks s'
      = tasks s ++ ((λ c, ActiveRefresh_await c (Some p)) <$> c :: cs)
        ++ [AwaitRefresh_request p]
    ∧ requests s'
      = requests s
        ++ [mkRequest "/auth/refresh" (token_body mode (Some ad))
              (credentials authConfig)]
    ∧ storage s' = Some unauthenticated
    ∧ results s' = results s
    ∧ refreshPromise s' = Some p
    ∧ now s' = now s
    ∧ timers s' = timers s
    ∧ refreshTimeout s' = refreshTimeout s.
Proof.
  intros Hp Hsto He Hnz Hlt i.
  destruct (calls_run (c :: cs) s) as (sA & HrunA & HfA & HtA & HrA & HpA & _).
  rewrite Hsto in HtA. rewrite Hp in HpA.
  pose proof HfA as (_ & _ & _ & HstoA & HnowA & HtimA & _ & HreqA & _).
  destruct (expired_step ad e c sA (tasks s)
              ((λ c, RefreshIfExpired_get c (Some ad)) <$> cs))
    as (sB & HstepB & HfB & HtB & HrB & HpB); try done.
  { by rewrite HnowA. }
  set (p := fresh sA) in *.
  destruct (rotate_run (λ c, RefreshIfExpired_get c (Some ad))
              (λ c, [ActiveRefresh_await c (Some p)]) (λ _, [])
              (λ s, refreshPromise s = Some p) (λ _, True)) with
    (cs := cs) (s := sB) (l := tasks s)
    (extra := [AwaitRefresh_get p (storage sA);
               ActiveRefresh_await c (Some p)])
    as (sC & HrunC & HfC & HtC & HrC & HpC & _); try done.
  { intros c0 s0 l0 ts0 Hp0 Ht0.
    destruct (join_step (Some ad) p c0 s0 l0 ts0 Hp0 Ht0)
      as (s1 & H1 & H2 & H3 & H4 & H5 & H6).
    exists s1. done. }
  rewrite bind_singletons, bind_nils, app_nil_r in *.
  pose proof (frame_trans _ _ _ HfA (frame_trans _ _ _ HfB HfC))
    as (HrtD & _ & _ & HstoD & HnowD & HtimD & _ & HreqD & _).
  assert (tasks sC
          = tasks s ++ AwaitRefresh_get p (storage sA)
              :: ((λ c, ActiveRefresh_await c (Some p)) <$> c :: cs))
    as HtC' by (by rewrite HtC).
  eexists _, p. split.
  - rewrite run_app, HrunA, bind_some.
    change (resumes (length (c :: cs)) i)
      with (Resume i :: resumes (length cs) i).
    rewrite <- app_comm_cons, run_cons. subst i.
    rewrite HstepB, bind_some, run_app, HrunC, bind_some, run_cons.
    rewrite (step_resume_at mode authConfig realtime sC (tasks s) _ _
               (length (tasks s)) HtC' eq_refl).
    cbn [resume]. rewrite bind_some. reflexivity.
  - simpl. rewrite HreqD, HrC, HrB, HrA, HpC, HnowD, HtimD, HrtD, HstoA, Hsto.
    rewrite <- !app_assoc. done.
Qed.

(** X4: single flight for [getToken].  A session holds a record within
    [msRefreshBeforeExpires] of its expiry and has no refresh promise set.
    However many callers then call [getToken()] together, one refresh
    request is sent, carrying the body built from the record that was
    stored.  If it succeeds, every caller resolves to the access token of
    the answer, the answer is stored with its derived [expires_at], and
    the refresh promise is cleared again.  If it fails, every caller is
    rejected with the error of the request and the store is left cleared.
    In both cases no suspended function of these calls is left behind. *)
Theorem concurrent_getToken_single_flight
  (s : State) (c : nat) (cs : list nat) (ad data : AuthenticationData)
  (e : Z) :
  refreshPromise s = None →
  storage s = Some ad → expires_at ad = Some e → e ≠ 0 →
  e < now s + msRefreshBeforeExpires authConfig →
  let i := length (tasks s) in
  let sent :=
    mkRequest "/auth/refresh" (token_body mode (Some ad))
      (credentials authConfig) in
  (∃ s',
     run mode authConfig realtime
       (concurrent_getToken_events i (c :: cs) (Resolved data)
        ++ getToken_return_events i (c :: cs)) s = Some s'
     ∧ requests s' = requests s ++ [sent]
     ∧ results s'
       = results s
         ++ ((λ c, (c, Resolved (VToken (access_token data)))) <$> c :: cs)
     ∧ storage s'
       = Some (mkData (access_token data) (refresh_token data)
                 (expires data) (Some (now s + default 0 (expires data))))
     ∧ tasks s' = tasks s
     ∧ refreshPromise s' = None)
  ∧ (∀ err, ∃ s',
       run mode authConfig realtime
         (concurrent_getToken_events i (c :: cs) (Rejected err)) s = Some s'
       ∧ requests s' = requests s ++ [sent]
       ∧ results s'
         = results s ++ ((λ c, (c, Rejected err)) <$> c :: cs)
       ∧ storage s' = Some unauthenticated
       ∧ tasks s' = tasks s
       ∧ refreshPromise s' = None).
Proof.
  intros Hp Hsto He Hnz Hlt i sent.
  destruct (concurrent_getToken_prefix s c cs ad e Hp Hsto He Hnz Hlt)
    as (s3 & p & Hrun3 & Ht3 & Hreq3 & Hsto3 & Hres3 & Hp3 & Hnow3 & _).
  fold i in Hrun3.
  assert (∀ r, concurrent_getToken_events i (c :: cs) r
               = ((CallGetToken <$> c :: cs) ++ resumes (length (c :: cs)) i
                  ++ [Resume i])
                 ++ [Reply (i + length (c :: cs)) r]
                 ++ resumes (length (c :: cs)) i) as Hsplit.
  { intros r. unfold concurrent_getToken_events.
    by rewrite <- !app_assoc. }
  set (waiting := (λ c, ActiveRefresh_await c (Some p)) <$> c :: cs) in *.
  assert (tasks s3 = (tasks s ++ waiting) ++ [AwaitRefresh_request p])
    as Ht3' by (by rewrite Ht3, <- app_assoc).
  assert ((i + length (c :: cs))%nat = length (tasks s ++ waiting)) as Hlen.
  { subst waiting i. by rewrite length_app, length_fmap. }
  split.
  - set (s3' := set_tasks ((tasks s ++ waiting) ++ []) s3).
    set (s4 := awaitRefresh_afterRequest authConfig p (Resolved data) s3').
    destruct (setCredentials_keeps data s3')
      as (Hk1 & Hk2 & Hk3 & Hk4 & Hk5 & Hk6 & _).
    pose proof (setCredentials_storage authConfig data s3') as Hk7.
    destruct (rotate_run (λ c, ActiveRefresh_await c (Some p))
                (λ c, [GetToken_resume c]) (λ _, [])
                (λ s, promises s !! p = Some (Resolved (stamp data s3')))
                (λ s, refreshPromise s = None)) with
      (cs := c :: cs) (s := s4) (l := tasks s) (extra := @nil Task)
      as (s5 & Hrun5 & Hf5 & Ht5 & Hr5 & _ & Hp5).
    { intros c0 s0 l0 ts0 Hp0 Ht0.
      destruct (resolved_step _ p c0 s0 l0 ts0 Hp0 Ht0)
        as (s1 & H1 & H2 & H3 & H4 & H5 & H6).
      exists s1. done. }
    { subst s4. simpl. apply lookup_insert_eq. }
    { subst s4. simpl. rewrite Hk1. subst s3'. simpl.
      by rewrite !app_nil_r. }
    specialize (Hp5 ltac:(done)).
    pose proof Hf5 as (_ & _ & _ & Hsto5 & _ & _ & _ & Hreq5 & _).
    rewrite bind_singletons, bind_nils in *. simpl in Ht5.
    destruct (rotate_run GetToken_resume
                (λ c, [GetToken_get c (Some (stamp data s3'))]) (λ _, [])
                (λ s, storage s = Some (stamp data s3')
                      ∧ refreshPromise s = None)
                (λ _, True)) with
      (cs := c :: cs) (s := s5) (l := tasks s) (extra := @nil Task)
      as (s6 & Hrun6 & Hf6 & Ht6 & Hr6 & [_ Hp6] & _).
    { intros c0 s0 l0 ts0 Hp0 Ht0.
      destruct (read_step _ c0 s0 l0 ts0 Hp0 Ht0)
        as (s1 & H1 & H2 & H3 & H4 & H5 & H6).
      exists s1. done. }
    { split; [|done]. rewrite Hsto5. subst s4. simpl. exact Hk7. }
    { by rewrite Ht5, app_nil_r. }
    pose proof Hf6 as (_ & _ & _ & Hsto6 & _ & _ & _ & Hreq6 & _).
    rewrite bind_singletons, bind_nils in *. simpl in Ht6.
    destruct (rotate_run (λ c, GetToken_get c (Some (stamp data s3')))
                (λ _, [])
                (λ c, [(c, Resolved (VToken (access_token data)))])
                (λ s, refreshPromise s = None) (λ _, True)) with
      (cs := c :: cs) (s := s6) (l := tasks s) (extra := @nil Task)
      as (s7 & Hrun7 & Hf7 & Ht7 & Hr7 & Hp7 & _).
    { intros c0 s0 l0 ts0 Hp0 Ht0.
      destruct (return_step _ c0 s0 l0 ts0 Hp0 Ht0)
        as (s1 & H1 & H2 & H3 & H4 & H5 & H6).
      exists s1. done. }
    { done. }
    { by rewrite Ht6, app_nil_r. }
    pose proof Hf7 as (_ & _ & _ & Hsto7 & _ & _ & _ & Hreq7 & _).
    rewrite bind_singletons, bind_nils in *.
    exists s7. split.
    + rewrite run_app, Hsplit, run_app, Hrun3, bind_some.
      rewrite <- app_comm_cons, app_nil_l, run_cons.
      erewrite step_reply_at; [|exact Ht3'|exact Hlen].
      cbn [reply]. rewrite bind_some. fold s3'. fold s4.
      subst i. rewrite Hrun5, bind_some.
      unfold getToken_return_events.
      by rewrite run_app, Hrun6, bind_some.
    + rewrite Hreq7, Hreq6, Hreq5, Hr7, Hr6, Hr5, Hsto7, Hsto6, Hsto5, Ht7.
      subst s4. simpl. rewrite Hk7, Hk3, Hk2. unfold stamp. subst s3'. simpl.
      rewrite Hreq3, Hres3, Hnow3, !app_nil_r. done.
  - intros err.
    set (s3' := set_tasks ((tasks s ++ waiting) ++ []) s3).
    set (s4 := awaitRefresh_afterRequest authConfig p (Rejected err) s3').
    destruct (rotate_run (λ c, ActiveRefresh_await c (Some p))
                (λ _, []) (λ c, [(c, Rejected err)])
                (λ s, promises s !! p = Some (Rejected err))
                (λ s, refreshPromise s = None)) with
      (cs := c :: cs) (s := s4) (l := tasks s) (extra := @nil Task)
      as (s5 & Hrun5 & Hf5 & Ht5 & Hr5 & _ & Hp5).
    { intros c0 s0 l0 ts0 Hp0 Ht0.
      destruct (rejected_step _ p c0 s0 l0 ts0 Hp0 Ht0)
        as (s1 & H1 & H2 & H3 & H4 & H5 & H6).
      exists s1. done. }
    { subst s4. simpl. apply lookup_insert_eq. }
    { subst s4 s3'. simpl. by rewrite !app_nil_r. }
    specialize (Hp5 ltac:(done)).
    pose proof Hf5 as (_ & _ & _ & Hsto5 & _ & _ & _ & Hreq5 & _).
    rewrite bind_singletons, bind_nils in *.
    exists s5. split.
    + rewrite Hsplit, run_app, Hrun3, bind_some.
      rewrite <- app_comm_cons, app_nil_l, run_cons.
      erewrite step_reply_at; [|exact Ht3'|exact Hlen].
      cbn [reply]. rewrite bind_some. fold s3'. fold s4.
      subst i. by rewrite Hrun5.
    + rewrite Hreq5, Hr5, Hsto5, Ht5. subst s4 s3'. simpl.
      rewrite Hreq3, Hres3, Hsto3, !app_nil_r. done.
Qed.

End AuthConcurrency.

Section ConcurrencyRuns.

Import Auth.

Lemma concurrent_getToken_single_flight_witness :
  ∃ s',
    run json defaultConfigValues true
      (concurrent_getToken_events 0 [1; 2; 3]%nat (Resolved reissued)
       ++ getToken_return_events 0 [1; 2; 3]%nat) expired_session = Some s'
    ∧ requests s'
      = requests expired_session
        ++ [mkRequest "/auth/refresh"
              [("mode", "json"); ("refresh_token", "refresh-1")] None]
    ∧ results s'
      = results expired_session
        ++ [(1%nat, Resolved (VToken (Some "access-2")));
            (2%nat, Resolved (VToken (Some "access-2")));
            (3%nat, Resolved (VToken (Some "access-2")))]
    ∧ storage s'
      = Some (mkData (Some "access-2") (Some "refresh-2") (Some 900000)
                (Some 1781000))
    ∧ tasks s' = []
    ∧ refreshPromise s' = None.
Proof.
  destruct (concurrent_getToken_single_flight json defaultConfigValues true
              expired_session 1 [2; 3]%nat stored_issued reissued 901000)
    as [H _]; [reflexivity|reflexivity|reflexivity|discriminate| |exact H].
  vm_compute. reflexivity.
Defined.

End ConcurrencyRuns.

Section AuthLifecycle.

Import Auth.

Variable mode : AuthenticationMode.
Variable authConfig : AuthenticationConfig.
Variable realtime : bool.

(** ** [getToken] on a record that is not about to expire *)

Lemma refreshIfExpired_unexpired (c : nat) (ad : AuthenticationData) (e : Z)
  (s : State) :
  refreshPromise s = None →
  expires_at ad = Some e →
  now s + msRefreshBeforeExpires authConfig ≤ e →
  refreshIfExpired_afterGet authConfig c (Some ad) s = activeRefresh c s.
Proof.
  intros Hp He Hle. unfold refreshIfExpired_afterGet. rewrite Hp.
  simpl (Some ad ≫= expires_at). rewrite He.
  apply Z.ltb_ge in Hle as ->. by destruct (_ || _).
Qed.

(** X5: a [getToken()] on a session that has no refresh promise set and
    whose record does not expire within [msRefreshBeforeExpires] of the
    moment the expiry check runs resolves to the stored access token; it
    sends no request, starts no refresh and leaves store, timers and pool
    as they were.  The bound is sharp on the side of the code: a record
    that expires exactly [msRefreshBeforeExpires] after the check is not
    refreshed. *)
Theorem getToken_returns_unexpired_token
  (s : State) (c : nat) (ad : AuthenticationData) (e d1 d2 d3 : Z) :
  refreshPromise s = None →
  storage s = Some ad →
  expires_at ad = Some e →
  0 ≤ d1 → 0 ≤ d2 → 0 ≤ d3 →
  now s + d1 + msRefreshBeforeExpires authConfig ≤ e →
  let i := length (tasks s) in
  ∃ s',
    run mode authConfig realtime
      [CallGetToken c; Advance d1; Resume i; Advance d2; Resume i;
       Advance d3; Resume i; Resume i] s = Some s'
    ∧ results s' = results s ++ [(c, Resolved (VToken (access_token ad)))]
    ∧ requests s' = requests s
    ∧ tasks s' = tasks s
    ∧ storage s' = storage s
    ∧ timers s' = timers s
    ∧ refreshPromise s' = None.
Proof.
  intros Hp Hsto He H1 H2 H3 Hle i. subst i.
  rewrite run_cons.
  change (step mode authConfig realtime (CallGetToken c) s)
    with (Some (getToken c s)).
  rewrite bind_some, run_cons, step_advance, bind_some, run_cons by done.
  erewrite (step_resume_at _ _ _ _ (tasks s)) by (simpl; reflexivity).
  cbn [resume]. simpl (storage_get _). rewrite Hsto.
  rewrite (refreshIfExpired_unexpired c ad e), bind_some by done.
  rewrite run_cons, step_advance, bind_some, run_cons by done.
  erewrite (step_resume_at _ _ _ _ (tasks s))
    by (simpl; rewrite ?app_nil_r; reflexivity).
  cbn [resume]. simpl (refreshPromise _). rewrite Hp.
  cbn [activeRefresh_afterAwait].
  rewrite bind_some, run_cons, step_advance, bind_some, run_cons by done.
  erewrite (step_resume_at _ _ _ _ (tasks s))
    by (simpl; rewrite ?app_nil_r; reflexivity).
  cbn [resume]. rewrite bind_some, run_cons.
  erewrite (step_resume_at _ _ _ _ (tasks s))
    by (simpl; rewrite ?app_nil_r; reflexivity).
  cbn [resume]. rewrite bind_some. cbn [run].
  eexists. split; [reflexivity|]. simpl.
  rewrite Hsto, !app_nil_r. done.
Qed.

(** ** The scheduled refresh *)

(** Resumes the function that follows the functions [l] in the pool. *)
Ltac resume_after l :=
  rewrite run_cons;
  erewrite (step_resume_at _ _ _ _ l)
    by (simpl; rewrite ?app_nil_r, <- ?app_assoc; reflexivity);
  cbn [resume]; rewrite ?bind_some.

Ltac reply_after l :=
  rewrite run_cons;
  erewrite (step_reply_at _ _ _ _ l)
    by (simpl; rewrite ?app_nil_r, <- ?app_assoc; reflexivity);
  cbn [reply]; rewrite ?bind_some.

(** The timer of a session has come due and fires: the refresh starts and
    its request goes out. *)
Lemma scheduled_refresh_sends (s : State) (t : positive) (due : Z) :
  timers s = [(t, due)] → due ≤ now s →
  let i := length (tasks s) in
  ∃ s',
    run mode authConfig realtime [Fire t; Resume i] s = Some s'
    ∧ requests s'
      = requests s
        ++ [mkRequest "/auth/refresh" (token_body mode (storage s))
              (credentials authConfig)]
    ∧ storage s' = Some unauthenticated
    ∧ timers s' = []
    ∧ refreshTimeout s' = None
    ∧ refreshPromise s' = Some (fresh s)
    ∧ fresh s' = Pos.succ (fresh s)
    ∧ tasks s' = tasks s ++ [AwaitRefresh_request (fresh s)]
    ∧ results s' = results s
    ∧ now s' = now s.
Proof.
  intros Ht Hdue i. subst i.
  rewrite run_cons. simpl (step _ _ _ (Fire t) s).
  rewrite (fire_armed t due s Ht). apply Z.leb_le in Hdue as ->.
  rewrite bind_some. resume_after (tasks s). cbn [run].
  eexists. split; [reflexivity|]. simpl.
  rewrite Ht, cancel_single, <- !app_assoc. done.
Qed.


(** X8: a scheduled refresh that fails tells nobody, but its rejected
    promise stays in [refreshPromise].  The first [getToken()] after the
    failure joins that promise and is rejected with the error of the old
    request; this clears [refreshPromise], and the next [getToken()]
    resolves to null.  The store is cleared, no timer is armed, and the
    one request sent is the failed one. *)
Theorem failed_scheduled_refresh_surfaces_once
  (s : State) (t : positive) (due : Z) (err : string) (c1 c2 : nat) :
  timers s = [(t, due)] → due ≤ now s →
  let i := length (tasks s) in
  ∃ s',
    run mode authConfig realtime
      [Fire t; Resume i; Reply i (Rejected err);
       CallGetToken c1; Resume i; Resume i;
       CallGetToken c2; Resume i; Resume i; Resume i; Resume i] s = Some s'
    ∧ results s'
      = results s ++ [(c1, Rejected err); (c2, Resolved (VToken None))]
    ∧ requests s'
      = requests s
        ++ [mkRequest "/auth/refresh" (token_body mode (storage s))
              (credentials authConfig)]
    ∧ storage s' = Some unauthenticated
    ∧ timers s' = []
    ∧ refreshPromise s' = None
    ∧ tasks s' = tasks s.
Proof.
  intros Ht Hdue i.
  destruct (scheduled_refresh_sends s t due Ht Hdue)
    as (s2 & Hrun & Hreq & Hsto & Htim & Hrt & Hp & Hfr & Hts & Hres & Hnow).
  match goal with
  | |- context [run _ _ _ (Fire t :: Resume i :: ?rest) s] =>
      change (Fire t :: Resume i :: rest) with ([Fire t; Resume i] ++ rest)
  end.
  rewrite run_app. fold i in Hrun. rewrite Hrun, bind_some.
  rewrite run_cons.
  rewrite (step_reply_at mode authConfig realtime s2 (tasks s) _ [] i _ Hts
             eq_refl).
  cbn [reply]. rewrite bind_some.
  rewrite run_cons.
  match goal with
  | |- context [step _ _ _ (CallGetToken c1) ?s1] =>
      change (step mode authConfig realtime (CallGetToken c1) s1)
        with (Some (getToken c1 s1))
  end.
  rewrite bind_some. subst i. resume_after (tasks s).
  unfold refreshIfExpired_afterGet at 1. simpl (refreshPromise _).
  rewrite Hp. simpl (bool_decide _ || _). cbn iota.
  resume_after (tasks s). rewrite Hp. cbn [activeRefresh_afterAwait].
  simpl (promises _ !! _). rewrite lookup_insert_eq, bind_some.
  rewrite run_cons.
  match goal with
  | |- context [step _ _ _ (CallGetToken c2) ?s1] =>
      change (step mode authConfig realtime (CallGetToken c2) s1)
        with (Some (getToken c2 s1))
  end.
  rewrite bind_some. resume_after (tasks s).
  simpl (storage_get _). rewrite Hsto.
  rewrite refreshIfExpired_without_expires_at by done.
  resume_after (tasks s). cbn [activeRefresh_afterAwait]. rewrite bind_some.
  resume_after (tasks s). resume_after (tasks s). cbn [run].
  eexists. split; [reflexivity|]. simpl.
  rewrite Hsto, Hreq, Htim, Hres, <- !app_assoc, !app_nil_r. done.
Qed.

(** ** [logout] and what follows *)

(** X9: a [logout()] whose request succeeds ends the session.  The
    request carries the body built from the record stored at the call;
    afterwards no timer is armed, so none can fire however far the clock
    advances, the listener the session referred to is gone, and a
    [getToken()] resolves to null without sending anything. *)
Theorem logout_ends_session
  (s : State) (c c' : nat) (d : AuthenticationData) (d1 d2 d3 : Z) :
  timer_tracked s → refreshPromise s = None →
  0 ≤ d1 → 0 ≤ d2 → 0 ≤ d3 →
  let i := length (tasks s) in
  ∃ s1 s2,
    run mode authConfig realtime
      [CallLogout c; Resume i; Reply i (Resolved d)] s = Some s1
    ∧ requests s1
      = requests s
        ++ [mkRequest "/auth/logout" (token_body mode (storage s))
              (credentials authConfig)]
    ∧ timers s1 = []
    ∧ (∀ t dt, step mode authConfig realtime (Fire t)
                 (set_now (now s1 + dt) s1) = None)
    ∧ (∀ h, realtimeHandler s = Some h → h ∉ listeners s1)
    ∧ run mode authConfig realtime
        [CallGetToken c'; Advance d1; Resume i; Advance d2; Resume i;
         Advance d3; Resume i; Resume i] s1 = Some s2
    ∧ results s2
      = results s ++ [(c, Resolved VUndefined); (c', Resolved (VToken None))]
    ∧ requests s2 = requests s1
    ∧ storage s2 = Some unauthenticated.
Proof.
  intros Hinv Hp H1 H2 H3 i. subst i.
  set (s0 := set_tasks (tasks s ++ [])
               (logout_afterGet mode authConfig c (storage_get s)
                  (set_tasks (tasks s ++ []) (logout c s)))).
  destruct (logout_afterRequest_resolved c d s0) as ((Hh & _ & Hsto) & Htim & Hres).
  set (s1 := logout_afterRequest c (Resolved d) s0) in *.
  assert (tasks s1 = tasks s) as Hts.
  { subst s1 s0. simpl. destruct (realtimeHandler s); simpl;
      destruct (refreshTimeout s); simpl; by rewrite !app_nil_r. }
  assert (requests s1
          = requests s
            ++ [mkRequest "/auth/logout" (token_body mode (storage s))
                  (credentials authConfig)]) as Hreq.
  { subst s1 s0. simpl. destruct (realtimeHandler s); simpl;
      by destruct (refreshTimeout s). }
  assert (refreshPromise s1 = None) as Hp1.
  { subst s1 s0. simpl. destruct (realtimeHandler s); simpl;
      by destruct (refreshTimeout s). }
  destruct (getToken_passthrough mode authConfig realtime s1 c' d1 d2 d3)
    as (s2 & Hrun2 & Hres2 & Hreq2 & _ & Hsto2 & _);
    [done | by rewrite Hsto | done | done | done |].
  exists s1, s2. split_and!.
  - rewrite run_cons.
    change (step mode authConfig realtime (CallLogout c) s)
      with (Some (logout c s)).
    rewrite bind_some. resume_after (tasks s). reply_after (tasks s).
    reflexivity.
  - done.
  - by apply Htim.
  - intros t dt.
    change (step mode authConfig realtime (Fire t) (set_now (now s1 + dt) s1))
      with (fire t (set_now (now s1 + dt) s1)).
    unfold fire. change (timers (set_now (now s1 + dt) s1)) with (timers s1).
    by rewrite (Htim Hinv).
  - intros h Hh'. by apply Hh.
  - by rewrite <- Hts.
  - rewrite Hres2, Hsto, Hres. subst s0. simpl. by rewrite <- app_assoc.
  - done.
  - by rewrite Hsto2.
Qed.

(** ** [login] *)

Lemma login_afterRequest_channel (c : nat) (email password : string)
  (data : AuthenticationData) (s : State) :
  let s' := login_afterRequest authConfig true c email password
              (Resolved data) s in
  ∃ h,
    listeners s' = listeners s ++ [h]
    ∧ realtimeHandler s' = Some h
    ∧ (connected s = true →
       outbox s' = outbox s ++ [AuthCredentials email password]
       ∧ tasks s' = tasks s ∧ connected s' = true)
    ∧ (connected s = false →
       outbox s' = outbox s
       ∧ tasks s' = tasks s ++ [Login_connect email password]
       ∧ connected s' = false).
Proof.
  destruct (setCredentials_keeps authConfig data s)
    as (Hk1 & _ & _ & _ & _ & _ & Hk7 & Hk8 & Hk9 & _).
  simpl. unfold sendMessage. simpl. rewrite Hk9.
  destruct (connected s); simpl; rewrite Hk1, Hk7, Hk8;
    eexists; split_and!; try done; intros [=].
Qed.

Lemma login_afterRequest_no_channel (c : nat) (email password : string)
  (data : AuthenticationData) (s : State) :
  let s' := login_afterRequest authConfig false c email password
              (Resolved data) s in
  outbox s' = outbox s ∧ listeners s' = listeners s
  ∧ realtimeHandler s' = realtimeHandler s ∧ tasks s' = tasks s.
Proof.
  destruct (setCredentials_keeps authConfig data s)
    as (Hk1 & _ & _ & _ & _ & _ & Hk7 & Hk8 & _ & Hk10 & _).
  simpl. by rewrite Hk1, Hk7, Hk8, Hk10.
Qed.

(** X10: the real-time channel is authenticated once per login.  With the
    real-time feature on and the socket open, a successful login registers
    one more listener, makes it the one [logout] removes, and sends the
    credentials once.  With the socket closed the send fails, nothing is
    sent at first, and the credentials are sent once, after [connect()]
    has resolved.  Without the feature the login leaves the channel
    alone. *)
Theorem login_authenticates_channel_once
  (s : State) (c : nat) (email password : string) (options : LoginOptions)
  (data : AuthenticationData) :
  let i := length (tasks s) in
  let events :=
    [CallLogin c email password options; Reply i (Resolved data)] in
  (connected s = true →
   ∃ s' h,
     run mode authConfig true events s = Some s'
     ∧ outbox s' = outbox s ++ [AuthCredentials email password]
     ∧ listeners s' = listeners s ++ [h]
     ∧ realtimeHandler s' = Some h
     ∧ tasks s' = tasks s)
  ∧ (connected s = false →
     ∃ s1 s2 h,
       run mode authConfig true events s = Some s1
       ∧ outbox s1 = outbox s
       ∧ listeners s1 = listeners s ++ [h]
       ∧ realtimeHandler s1 = Some h
       ∧ tasks s1 = tasks s ++ [Login_connect email password]
       ∧ run mode authConfig true [Resume i] s1 = Some s2
       ∧ outbox s2 = outbox s ++ [AuthCredentials email password]
       ∧ connected s2 = true
       ∧ tasks s2 = tasks s)
  ∧ (∃ s',
       run mode authConfig false events s = Some s'
       ∧ outbox s' = outbox s
       ∧ listeners s' = listeners s
       ∧ realtimeHandler s' = realtimeHandler s
       ∧ tasks s' = tasks s).
Proof.
  intros i events. subst i events.
  set (s0 := set_tasks (tasks s ++ [])
               (login mode authConfig c email password options s)).
  assert (∀ rt, run mode authConfig rt
                  [CallLogin c email password options;
                   Reply (length (tasks s)) (Resolved data)] s
                = Some (login_afterRequest authConfig rt c email password
                          (Resolved data) s0)) as Hrun.
  { intros rt. rewrite run_cons.
    change (step mode authConfig rt (CallLogin c email password options) s)
      with (Some (login mode authConfig c email password options s)).
    rewrite bind_some. reply_after (tasks s). reflexivity. }
  assert (tasks s0 = tasks s) as Hts
    by (subst s0; simpl; by rewrite app_nil_r).
  destruct (login_afterRequest_channel c email password data s0)
    as (h & Hl & Hh & Hopen & Hclosed).
  destruct (login_afterRequest_no_channel c email password data s0)
    as (Ho & Hl' & Hh' & Ht').
  assert (connected s0 = connected s ∧ outbox s0 = outbox s
          ∧ listeners s0 = listeners s
          ∧ realtimeHandler s0 = realtimeHandler s) as (Hc0 & Ho0 & Hl0 & Hh0)
    by done.
  clearbody s0. rewrite Hc0, Ho0 in *. rewrite Hl0 in *. rewrite Hh0 in *.
  split_and!.
  - intros Hconn. destruct (Hopen Hconn) as (Hout & Htk & _).
    eexists _, h. split; [apply Hrun|]. by rewrite Htk, Hts.
  - intros Hconn. destruct (Hclosed Hconn) as (Hout & Htk & Hc).
    pose proof (Hrun true) as Hrun1.
    set (s1 := login_afterRequest authConfig true c email password
                 (Resolved data) s0) in *.
    clearbody s1.
    exists s1, (login_afterConnect email password
                  (set_tasks (tasks s0 ++ []) s1)), h.
    split; [exact Hrun1|].
    split_and!; try done.
    + by rewrite Htk, Hts.
    + rewrite run_cons, <- Hts.
      rewrite (step_resume_at mode authConfig true _ (tasks s0) _ [] _ Htk
                 eq_refl).
      cbn [resume]. rewrite bind_some. reflexivity.
    + simpl. by rewrite Hout.
    + simpl. by rewrite app_nil_r.
  - eexists. split; [apply Hrun|]. by rewrite Ht', Hts.
Qed.

(** X11: a failed login.  [login] clears the store when it is called, so a
    login whose request fails leaves the session unauthenticated, whatever
    it held before, and hands the error to its caller.  The one request it
    sent carries email, password, the one-time password when given, and the
    mode of the options or else of the session.  A timer armed earlier is
    not cancelled, and the channel is not touched. *)
Theorem login_failure_leaves_unauthenticated
  (s : State) (c : nat) (email password : string) (options : LoginOptions)
  (err : string) :
  let i := length (tasks s) in
  ∃ s',
    run mode authConfig realtime
      [CallLogin c email password options; Reply i (Rejected err)] s
    = Some s'
    ∧ results s' = results s ++ [(c, Rejected err)]
    ∧ storage s' = Some unauthenticated
    ∧ requests s'
      = requests s
        ++ [mkRequest "/auth/login"
              ([("email", email); ("password", password)]
               ++ match otp options with
                  | Some o => [("otp", o)]
                  | None => []
                  end
               ++ [("mode", mode_string (default mode (opt_mode options)))])
              (credentials authConfig)]
    ∧ timers s' = timers s
    ∧ refreshTimeout s' = refreshTimeout s
    ∧ listeners s' = listeners s
    ∧ outbox s' = outbox s
    ∧ tasks s' = tasks s.
Proof.
  intros i. subst i. rewrite run_cons.
  change (step mode authConfig realtime
            (CallLogin c email password options) s)
    with (Some (login mode authConfig c email password options s)).
  rewrite bind_some. reply_after (tasks s). cbn [run].
  eexists. split; [reflexivity|]. simpl. by rewrite app_nil_r.
Qed.

(** X12: what a successful login and a successful [refresh()] resolve to
    is the record they left in the store, derived [expires_at] included;
    and the refresh request carries the body built from the record that
    was stored when [refresh()] was called. *)
Theorem issuance_resolves_to_stored_record
  (s : State) (c : nat) (email password : string) (options : LoginOptions)
  (data : AuthenticationData) :
  let i := length (tasks s) in
  let stored :=
    mkData (access_token data) (refresh_token data) (expires data)
      (Some (now s + default 0 (expires data))) in
  (∃ s',
     run mode authConfig realtime
       [CallLogin c email password options; Reply i (Resolved data)] s
     = Some s'
     ∧ storage s' = Some stored
     ∧ results s' = results s ++ [(c, Resolved (VData stored))])
  ∧ (∃ s',
       run mode authConfig realtime
         [CallRefresh c; Resume i; Reply (S i) (Resolved data); Resume i] s
       = Some s'
       ∧ storage s' = Some stored
       ∧ results s' = results s ++ [(c, Resolved (VData stored))]
       ∧ requests s'
         = requests s
           ++ [mkRequest "/auth/refresh" (token_body mode (storage s))
                 (credentials authConfig)]
       ∧ tasks s' = tasks s).
Proof.
  intros i stored. subst i. split.
  - rewrite run_cons.
    change (step mode authConfig realtime
              (CallLogin c email password options) s)
      with (Some (login mode authConfig c email password options s)).
    rewrite bind_some. reply_after (tasks s). cbn [run].
    eexists. split; [reflexivity|].
    set (s0 := set_tasks (tasks s ++ [])
                 (login mode authConfig c email password options s)).
    destruct (setCredentials_keeps authConfig data s0)
      as (_ & Hk2 & _).
    pose proof (setCredentials_storage authConfig data s0) as Hk.
    destruct realtime.
    + simpl. unfold sendMessage. simpl.
      destruct (connected (setCredentials authConfig data s0)); simpl;
        by rewrite Hk, Hk2.
    + simpl. by rewrite Hk, Hk2.
  - rewrite run_cons.
    change (step mode authConfig realtime (CallRefresh c) s)
      with (Some (add_task (Refresh_caller c (fresh s)) (refresh s).2)).
    rewrite bind_some. resume_after (tasks s).
    rewrite run_cons.
    erewrite (step_reply_at _ _ _ _ (tasks s ++ [Refresh_caller c (fresh s)]))
      by (simpl; rewrite <- ?app_assoc, ?length_app; simpl;
          first [reflexivity | lia]).
    cbn [reply]. rewrite bind_some.
    set (s0 := set_tasks _ _).
    destruct (setCredentials_keeps authConfig data s0)
      as (Hk1 & Hk2 & Hk3 & _ & Hk5 & _).
    pose proof (setCredentials_storage authConfig data s0) as Hk.
    assert (tasks (awaitRefresh_afterRequest authConfig (fresh s)
                     (Resolved data) s0)
            = tasks s ++ [Refresh_caller c (fresh s)]) as Hts.
    { unfold awaitRefresh_afterRequest, settle. cbn [tasks set_promises].
      rewrite Hk1. subst s0. simpl. by rewrite app_nil_r. }
    rewrite run_cons.
    rewrite (step_resume_at mode authConfig realtime _ (tasks s) _ [] _ Hts
               eq_refl).
    cbn [resume]. simpl (promises _ !! _). rewrite lookup_insert_eq.
    rewrite bind_some. cbn [run].
    eexists. split; [reflexivity|]. simpl.
    rewrite Hk, Hk2, Hk3. subst s0. simpl. by rewrite !app_nil_r.
Qed.

End AuthLifecycle.

Section AuthRequests.

Import Auth.

Variable mode : AuthenticationMode.
Variable authConfig : AuthenticationConfig.
Variable realtime : bool.

Lemma token_body_shape (authData : option AuthenticationData) :
  token_body mode authData = [("mode", mode_string mode)]
  ∨ (mode = json
     ∧ ∃ tok, tok ≠ EmptyString
              ∧ token_body mode authData
                = [("mode", "json"); ("refresh_token", tok)]).
Proof.
  unfold token_body. destruct mode; try by left.
  destruct (authData ≫= refresh_token) as [tok|]; [|by left].
  simpl. destruct (String.eqb_spec tok EmptyString) as [->|Hne]; simpl.
  - by left.
  - right. split; [done|]. by exists tok.
Qed.

Lemma onMessage_requests (msg : Message) (s : State) :
  requests (onMessage msg s) = requests s.
Proof.
  unfold onMessage, sendMessage.
  repeat (case_bool_decide || case_match); simplify_eq/=; done.
Qed.

Lemma dispatch_requests (msg : Message) (s : State) :
  requests (dispatch msg s) = requests s.
Proof.
  unfold dispatch. generalize (listeners s) as hs. intros hs. revert s.
  induction hs as [|h hs IH]; intros s; simpl; [done|].
  rewrite IH. apply onMessage_requests.
Qed.

Lemma login_afterRequest_requests (c : nat) (email password : string)
  (r : Settled AuthenticationData) (s : State) :
  requests (login_afterRequest authConfig realtime c email password r s)
  = requests s.
Proof.
  destruct r as [data|err]; [|done].
  destruct (setCredentials_keeps authConfig data s) as (_ & _ & Hk & _).
  simpl. destruct realtime; simpl; [|done].
  unfold sendMessage. simpl.
  by destruct (connected (setCredentials authConfig data s)).
Qed.

Lemma step_requests (e : Event) (s s' : State) :
  step mode authConfig realtime e s = Some s' →
  ∃ rs, requests s' = requests s ++ rs
        ∧ Forall (request_ok mode authConfig) rs.
Proof.
  intros Hstep.
  assert (requests s' = requests s →
          ∃ rs, requests s' = requests s ++ rs
                ∧ Forall (request_ok mode authConfig) rs) as Hsame.
  { intros ->. exists []. by rewrite app_nil_r. }
  destruct e; simpl in Hstep.
  - simplify_eq. by apply Hsame.
  - simplify_eq. eexists [_]. split; [reflexivity|].
    repeat constructor.
  - simplify_eq. by apply Hsame.
  - simplify_eq. by apply Hsame.
  - simplify_eq. by apply Hsame.
  - destruct (take_task i s) as [[t s1]|] eqn:Htake; [|done]. simpl in Hstep.
    unfold take_task in Htake. destruct (tasks s !! i); simplify_eq/=.
    destruct t; simpl in Hstep; simplify_eq.
    + apply Hsame. unfold refreshIfExpired_afterGet.
      repeat case_match; done.
    + apply Hsame. unfold activeRefresh_afterAwait in Hstep.
      repeat case_match; by simplify_eq.
    + by apply Hsame.
    + by apply Hsame.
    + eexists [_]. split; [reflexivity|].
      constructor; [|constructor]. split; [done|]. right.
      split; [by left|]. apply token_body_shape.
    + apply Hsame. repeat case_match; by simplify_eq.
    + apply Hsame. unfold login_afterConnect, sendMessage. done.
    + eexists [_]. split; [reflexivity|].
      constructor; [|constructor]. split; [done|]. right.
      split; [by right|]. apply token_body_shape.
  - destruct (take_task i s) as [[t s1]|] eqn:Htake; [|done]. simpl in Hstep.
    unfold take_task in Htake. destruct (tasks s !! i); simplify_eq/=.
    destruct t; simpl in Hstep; simplify_eq.
    + apply Hsame. destruct r as [data|err]; [|done]. simpl.
      by destruct (setCredentials_keeps authConfig data
                     (set_tasks (delete i (tasks s)) s)) as (_ & _ & -> & _).
    + apply Hsame. by rewrite login_afterRequest_requests.
    + apply Hsame. destruct r as [data|err]; [|done]. simpl.
      destruct (realtimeHandler s); simpl; by destruct (refreshTimeout s).
  - apply Hsame. unfold fire in Hstep.
    repeat case_match; by simplify_eq.
  - destruct (connected s); simplify_eq. apply Hsame.
    apply dispatch_requests.
  - destruct (0 <=? dt); simplify_eq. by apply Hsame.
Qed.

Lemma run_reachable (es : list Event) (s s' : State) :
  reachable mode authConfig realtime s →
  run mode authConfig realtime es s = Some s' →
  reachable mode authConfig realtime s'.
Proof.
  revert s. induction es as [|e es IH]; intros s Hreach Hrun; simpl in Hrun.
  - by simplify_eq.
  - destruct (step mode authConfig realtime e s) as [s1|] eqn:Hstep; [|done].
    simpl in Hrun. eapply IH; [|exact Hrun]. by eapply reachable_step.
Qed.

Lemma reachable_requests_ok (s : State) :
  reachable mode authConfig realtime s →
  Forall (request_ok mode authConfig) (requests s).
Proof.
  induction 1 as [t0 conn | e s s' _ IH Hstep]; [constructor|].
  destruct (step_requests e s s' Hstep) as (rs & -> & Hrs).
  by apply Forall_app.
Qed.

(** X6: whatever a session has been through, every request it has sent
    carries the [credentials] of its configuration, and every refresh and
    logout request has the body [{ mode }] alone, except that in [json]
    mode it may also carry a [refresh_token], which is then not empty.  In
    [cookie] and [session] mode no refresh token ever travels in a
    body. *)
Theorem requests_never_leak_refresh_token (s : State) :
  reachable mode authConfig realtime s →
  Forall (request_ok mode authConfig) (requests s)
  ∧ (mode ≠ json →
     ∀ r, r ∈ requests s → path r ≠ "/auth/login" →
          body r = [("mode", mode_string mode)]).
Proof.
  intros Hreach. pose proof (reachable_requests_ok s Hreach) as Hall.
  split; [done|].
  intros Hmode r Hr Hpath. rewrite Forall_forall in Hall.
  destruct (Hall r Hr) as (_ & [Hlogin | (_ & [Hbody | (Hjson & _)])]); done.
Qed.

(** ** The stored record *)

Lemma setCredentials_record_ok (data : AuthenticationData) (s : State) :
  record_ok (setCredentials authConfig data s).
Proof.
  unfold record_ok. rewrite setCredentials_storage. simpl.
  destruct (setCredentials_keeps authConfig data s)
    as (_ & _ & _ & _ & _ & -> & _). lia.
Qed.

Lemma record_ok_same (s s' : State) :
  storage s' = storage s → now s' = now s → record_ok s → record_ok s'.
Proof. unfold record_ok. by intros -> ->. Qed.

Lemma onMessage_record (msg : Message) (s : State) :
  storage (onMessage msg s) = storage s ∧ now (onMessage msg s) = now s.
Proof.
  unfold onMessage, sendMessage.
  repeat (case_bool_decide || case_match); simplify_eq/=; done.
Qed.

Lemma dispatch_record (msg : Message) (s : State) :
  storage (dispatch msg s) = storage s ∧ now (dispatch msg s) = now s.
Proof.
  unfold dispatch. generalize (listeners s) as hs. intros hs. revert s.
  induction hs as [|h hs IH]; intros s; simpl; [done|].
  destruct (IH (onMessage msg s)) as [-> ->]. apply onMessage_record.
Qed.

Lemma step_record_ok (e : Event) (s s' : State) :
  record_ok s → step mode authConfig realtime e s = Some s' → record_ok s'.
Proof.
  intros Hinv Hstep. destruct e; simpl in Hstep.
  - simplify_eq. by eapply record_ok_same; [| |exact Hinv].
  - simplify_eq. by split.
  - simplify_eq. by eapply record_ok_same; [| |exact Hinv].
  - simplify_eq. by eapply record_ok_same; [| |exact Hinv].
  - simplify_eq. by split.
  - destruct (take_task i s) as [[t s1]|] eqn:Htake; [|done]. simpl in Hstep.
    unfold take_task in Htake. destruct (tasks s !! i); simplify_eq/=.
    destruct t; simpl in Hstep; simplify_eq.
    + eapply record_ok_same; [| |exact Hinv];
        unfold refreshIfExpired_afterGet; repeat case_match; done.
    + unfold activeRefresh_afterAwait in Hstep.
      repeat case_match; simplify_eq;
        by eapply record_ok_same; [| |exact Hinv].
    + by eapply record_ok_same; [| |exact Hinv].
    + by eapply record_ok_same; [| |exact Hinv].
    + by split.
    + repeat case_match; simplify_eq;
        by eapply record_ok_same; [| |exact Hinv].
    + eapply record_ok_same; [| |exact Hinv];
        unfold login_afterConnect, sendMessage; done.
    + by eapply record_ok_same; [| |exact Hinv].
  - destruct (take_task i s) as [[t s1]|] eqn:Htake; [|done]. simpl in Hstep.
    unfold take_task in Htake. destruct (tasks s !! i); simplify_eq/=.
    destruct t; simpl in Hstep; simplify_eq.
    + destruct r as [data|err]; simpl.
      * eapply record_ok_same; [| |apply (setCredentials_record_ok data)];
          reflexivity.
      * by eapply record_ok_same; [| |exact Hinv].
    + destruct r as [data|err]; simpl.
      * eapply (record_ok_same
                  (setCredentials authConfig data
                     (set_tasks (delete i (tasks s)) s)));
          [| |apply (setCredentials_record_ok data)].
        -- destruct realtime; simpl; [|reflexivity].
           unfold sendMessage. simpl. by destruct (connected _).
        -- destruct realtime; simpl; [|reflexivity].
           unfold sendMessage. simpl. by destruct (connected _).
      * by eapply record_ok_same; [| |exact Hinv].
    + destruct r as [data|err]; simpl.
      * unfold record_ok. simpl.
        destruct (realtimeHandler s); simpl;
          by destruct (refreshTimeout s).
      * by eapply record_ok_same; [| |exact Hinv].
  - unfold fire in Hstep. repeat case_match; simplify_eq.
    by eapply record_ok_same; [| |exact Hinv].
  - destruct (connected s); simplify_eq.
    destruct (dispatch_record msg s) as [Hs Hn].
    by eapply record_ok_same; [| |exact Hinv].
  - destruct (Z.leb_spec 0 dt); simplify_eq.
    unfold record_ok in *. simpl. destruct (storage s) as [d|]; [|done].
    destruct (expires_at d); [lia|done].
Qed.

(** X13: in every state a session can reach, a stored record without
    [expires_at] has neither a lifetime nor a refresh token, so it can
    only be the unauthenticated record or one set by [setToken]; and a
    stored [expires_at] lies no further ahead of the clock than the
    lifetime of the record, so a record issued without lifetime, or with
    lifetime 0, is never ahead of the clock. *)
Theorem stored_record_stays_consistent (s : State) :
  reachable mode authConfig realtime s →
  record_ok s
  ∧ (∀ d e, storage s = Some d → expires_at d = Some e →
            default 0 (expires d) = 0 → e ≤ now s).
Proof.
  intros Hreach.
  assert (record_ok s) as Hok.
  { induction Hreach as [t0 conn | e s s' _ IH Hstep]; [done|].
    by eapply step_record_ok. }
  split; [done|]. intros d e Hsto He Hz.
  unfold record_ok in Hok. rewrite Hsto, He in Hok. lia.
Qed.

End AuthRequests.

Section SdkClient.

Import Auth.

(** X14: the client the app builds.  The given keys override the defaults
    and the others keep them: refreshes are scheduled, 10 seconds before
    expiry.  Whatever this client has been through, every request it has
    sent carries [credentials: 'include'], and no refresh or logout request
    has anything in its body but [mode: 'session']; when it stores a record
    with a lifetime [E] of more than 10 seconds, below [MAX_SAFE_INTEGER],
    whose delay [E - 10000] the host timer holds (at most [TIMEOUT_MAX]),
    its one timer is due [E - 10000] ms later. *)
Theorem sdk_client_relies_on_credentials
  (realtime : bool) (s : State) (data : AuthenticationData) (E : Z) :
  reachable sdk_mode sdk_config realtime s →
  sdk_config = mkConfig 10000 true (Some "include")
  ∧ (∀ r, r ∈ requests s →
          req_credentials r = Some "include"
          ∧ (path r ≠ "/auth/login" → body r = [("mode", "session")]))
  ∧ (expires data = Some E → 10000 < E < MAX_SAFE_INTEGER →
     E - 10000 ≤ TIMEOUT_MAX →
     timers (setCredentials sdk_config data s)
     = [(fresh s, now s + (E - 10000))]).
Proof.
  intros Hreach. split; [reflexivity|]. split.
  - intros r Hr.
    pose proof (reachable_requests_ok sdk_mode sdk_config realtime s Hreach)
      as Hall.
    rewrite Forall_forall in Hall.
    destruct (Hall r Hr) as (Hcred & [Hlogin | (_ & [Hbody | (Hjson & _)])]);
      done.
  - intros HE Hrange Hmax.
    apply (setCredentials_armed_in_range sdk_config data E s); try done.
    by eapply reachable_tracked.
Qed.

Lemma sdk_client_relies_on_credentials_witness :
  timers (setCredentials sdk_config issued sdk_refreshing)
  = [(fresh sdk_refreshing, now sdk_refreshing + (900000 - 10000))].
Proof.
  destruct (sdk_client_relies_on_credentials false sdk_refreshing issued
              900000) as (_ & _ & H).
  - apply (run_reachable sdk_mode sdk_config false
             (login_events issued ++ [CallRefresh 1; Resume 0])
             (init 1000 false)); [constructor|].
    vm_compute. reflexivity.
  - apply H; [reflexivity|vm_compute; done|vm_compute; discriminate].
Defined.

End SdkClient.

Section LifecycleRuns.

Import Auth.

Lemma getToken_returns_unexpired_token_witness :
  ∃ s',
    run json defaultConfigValues true
      [CallGetToken 7; Advance 1000; Resume 0; Advance 1000; Resume 0;
       Advance 1000; Resume 0; Resume 0] logged_in = Some s'
    ∧ results s'
      = results logged_in ++ [(7%nat, Resolved (VToken (Some "access-1")))]
    ∧ requests s' = requests logged_in
    ∧ tasks s' = tasks logged_in
    ∧ storage s' = storage logged_in
    ∧ timers s' = timers logged_in
    ∧ refreshPromise s' = None.
Proof.
  apply (getToken_returns_unexpired_token json defaultConfigValues true
           logged_in 7 stored_issued 901000 1000 1000 1000);
    try reflexivity; try lia.
  vm_compute. discriminate.
Defined.

Lemma requests_never_leak_refresh_token_witness :
  Forall (request_ok json defaultConfigValues) (requests refreshing).
Proof.
  destruct (requests_never_leak_refresh_token json defaultConfigValues true
              refreshing) as [H _]; [|exact H].
  apply (run_reachable json defaultConfigValues true
           (login_events issued ++ [CallRefresh 1; Resume 0])
           (init 1000 true)); [constructor|].
  vm_compute. reflexivity.
Defined.

Lemma stored_record_stays_consistent_witness : record_ok expired_session.
Proof.
  destruct (stored_record_stays_consistent json defaultConfigValues true
              expired_session) as [H _]; [|exact H].
  apply (run_reachable json defaultConfigValues true
           (login_events issued ++ [Advance 880000]) (init 1000 true));
    [constructor|].
  vm_compute. reflexivity.
Defined.


Lemma failed_scheduled_refresh_surfaces_once_witness :
  ∃ s',
    run json defaultConfigValues true
      [Fire 1; Resume 0; Reply 0 (Rejected "401");
       CallGetToken 1; Resume 0; Resume 0;
       CallGetToken 2; Resume 0; Resume 0; Resume 0; Resume 0] timer_due
    = Some s'
    ∧ results s'
      = results timer_due
        ++ [(1%nat, Rejected "401"); (2%nat, Resolved (VToken None))]
    ∧ requests s'
      = requests timer_due
        ++ [mkRequest "/auth/refresh"
              [("mode", "json"); ("refresh_token", "refresh-1")] None]
    ∧ storage s' = Some unauthenticated
    ∧ timers s' = []
    ∧ refreshPromise s' = None
    ∧ tasks s' = tasks timer_due.
Proof.
  apply (failed_scheduled_refresh_surfaces_once json defaultConfigValues true
           timer_due 1%positive 871000 "401" 1 2); reflexivity.
Defined.

Lemma logout_ends_session_witness :
  ∃ s1 s2,
    run json defaultConfigValues true
      [CallLogout 1; Resume 0; Reply 0 (Resolved unauthenticated)] logged_in
    = Some s1
    ∧ timers s1 = []
    ∧ run json defaultConfigValues true
        [CallGetToken 2; Advance 0; Resume 0; Advance 0; Resume 0;
         Advance 0; Resume 0; Resume 0] s1 = Some s2
    ∧ results s2
      = results logged_in
        ++ [(1%nat, Resolved VUndefined); (2%nat, Resolved (VToken None))]
    ∧ storage s2 = Some unauthenticated.
Proof.
  destruct (logout_ends_session json defaultConfigValues true logged_in 1 2
              unauthenticated 0 0 0)
    as (s1 & s2 & H1 & _ & H3 & _ & _ & H6 & H7 & _ & H9);
    try lia; try reflexivity.
  - right. exists 1%positive, 871000. split; reflexivity.
  - exists s1, s2. split_and!; assumption.
Defined.

Lemma login_authenticates_channel_once_witness :
  ∃ s1 s2 h,
    run json defaultConfigValues true (login_events issued) (init 1000 false)
    = Some s1
    ∧ outbox s1 = []
    ∧ listeners s1 = [h]
    ∧ realtimeHandler s1 = Some h
    ∧ tasks s1 = [Login_connect "admin@example.com" "secret"]
    ∧ run json defaultConfigValues true [Resume 0] s1 = Some s2
    ∧ outbox s2 = [AuthCredentials "admin@example.com" "secret"]
    ∧ connected s2 = true
    ∧ tasks s2 = [].
Proof.
  destruct (login_authenticates_channel_once json defaultConfigValues
              (init 1000 false) 0 "admin@example.com" "secret" no_options
              issued) as (_ & H & _).
  exact (H eq_refl).
Defined.

End LifecycleRuns.

Section AuthRelogin.

Import Auth.

Variable mode : AuthenticationMode.
Variable authConfig : AuthenticationConfig.

Lemma setCredentials_fresh_le (data : AuthenticationData) (s : State) :
  (fresh s ≤ fresh (setCredentials authConfig data s))%positive.
Proof.
  unfold setCredentials. destruct (_ && _); [|simpl; lia].
  simpl. destruct (refreshTimeout s); simpl; lia.
Qed.

(** A successful login over an open socket, from the call to the answer. *)
Lemma login_run (s : State) (c : nat) (email password : string)
  (options : LoginOptions) (data : AuthenticationData) :
  connected s = true →
  ∃ s' h,
    run mode authConfig true
      [CallLogin c email password options;
       Reply (length (tasks s)) (Resolved data)] s = Some s'
    ∧ tasks s' = tasks s
    ∧ connected s' = true
    ∧ realtimeHandler s' = Some h
    ∧ listeners s' = listeners s ++ [h]
    ∧ (fresh s ≤ h)%positive
    ∧ fresh s' = Pos.succ h.
Proof.
  intros Hconn.
  set (s0 := set_tasks (tasks s ++ [])
               (login mode authConfig c email password options s)).
  exists (login_afterRequest authConfig true c email password
            (Resolved data) s0),
         (fresh (setCredentials authConfig data s0)).
  split.
  { rewrite run_cons.
    change (step mode authConfig true (CallLogin c email password options) s)
      with (Some (login mode authConfig c email password options s)).
    rewrite bind_some. rewrite run_cons.
    erewrite (step_reply_at _ _ _ _ (tasks s))
      by (simpl; rewrite ?app_nil_r; reflexivity).
    reflexivity. }
  destruct (setCredentials_keeps authConfig data s0)
    as (Hk1 & _ & _ & _ & _ & _ & Hk7 & _ & Hk9 & _).
  pose proof (setCredentials_fresh_le data s0) as Hle.
  assert (connected s0 = true ∧ tasks s0 = tasks s
          ∧ listeners s0 = listeners s ∧ fresh s0 = fresh s)
    as (Hc0 & Ht0 & Hl0 & Hf0)
    by (subst s0; simpl; by rewrite app_nil_r).
  simpl. unfold sendMessage. simpl. rewrite Hk9, Hc0. simpl.
  rewrite Hk1, Hk7, Ht0, Hl0, <- Hf0.
  split_and!; try done. by rewrite Hk9.
Qed.

(** A successful logout, from the call to the answer. *)
Lemma logout_run (s : State) (c : nat) (d : AuthenticationData)
  (h : positive) :
  realtimeHandler s = Some h →
  ∃ s',
    run mode authConfig true
      [CallLogout c; Resume (length (tasks s));
       Reply (length (tasks s)) (Resolved d)] s = Some s'
    ∧ listeners s' = filter (λ x, x ≠ h) (listeners s)
    ∧ realtimeHandler s' = Some h
    ∧ storage s' = Some unauthenticated.
Proof.
  intros Hh. eexists. split.
  { rewrite run_cons.
    change (step mode authConfig true (CallLogout c) s)
      with (Some (logout c s)).
    rewrite bind_some. rewrite run_cons.
    erewrite (step_resume_at _ _ _ _ (tasks s))
      by (simpl; rewrite ?app_nil_r; reflexivity).
    cbn [resume]. rewrite bind_some, run_cons.
    erewrite (step_reply_at _ _ _ _ (tasks s))
      by (simpl; rewrite ?app_nil_r; reflexivity).
    reflexivity. }
  simpl. rewrite Hh. simpl. by destruct (refreshTimeout s).
Qed.

(** X15: [logout] removes the listener of the latest login only.  When a
    session logs in twice over an open socket and then logs out, the
    listener the first login registered is still registered afterwards,
    although the store is cleared: the second login overwrote
    [realtimeHandler] without unsubscribing the first listener. *)
Theorem relogin_leaves_first_listener
  (s : State) (c1 c2 c3 : nat) (email password : string)
  (options : LoginOptions) (data1 data2 d : AuthenticationData) :
  connected s = true →
  let i := length (tasks s) in
  ∃ s' h1 h2,
    run mode authConfig true
      ([CallLogin c1 email password options; Reply i (Resolved data1)]
       ++ [CallLogin c2 email password options; Reply i (Resolved data2)]
       ++ [CallLogout c3; Resume i; Reply i (Resolved d)]) s = Some s'
    ∧ storage s' = Some unauthenticated
    ∧ realtimeHandler s' = Some h2
    ∧ h1 ≠ h2
    ∧ h1 ∈ listeners s'
    ∧ h2 ∉ listeners s'.
Proof.
  intros Hconn i. subst i.
  destruct (login_run s c1 email password options data1 Hconn)
    as (s1 & h1 & Hrun1 & Ht1 & Hc1 & Hh1 & Hl1 & Hle1 & Hf1).
  destruct (login_run s1 c2 email password options data2 Hc1)
    as (s2 & h2 & Hrun2 & Ht2 & Hc2 & Hh2 & Hl2 & Hle2 & Hf2).
  destruct (logout_run s2 c3 d h2 Hh2) as (s3 & Hrun3 & Hl3 & Hh3 & Hsto3).
  rewrite Ht1 in Hrun2. rewrite Ht2, Ht1 in Hrun3.
  assert (h1 ≠ h2) as Hne by (rewrite Hf1 in Hle2; lia).
  exists s3, h1, h2. split_and!; try done.
  - by rewrite run_app, Hrun1, bind_some, run_app, Hrun2, bind_some.
  - rewrite Hl3, Hl2, Hl1. apply list_elem_of_filter. split; [done|].
    rewrite !elem_of_app, !list_elem_of_singleton. auto.
  - rewrite Hl3. by intros [? _]%list_elem_of_filter.
Qed.

End AuthRelogin.

Section ReloginRuns.

Import Auth.

Lemma relogin_leaves_first_listener_witness :
  ∃ s' h1 h2,
    run json defaultConfigValues true
      ([CallLogin 1 "admin@example.com" "secret" no_options;
        Reply 0 (Resolved issued)]
       ++ [CallLogin 2 "admin@example.com" "secret" no_options;
           Reply 0 (Resolved reissued)]
       ++ [CallLogout 3; Resume 0; Reply 0 (Resolved unauthenticated)])
      (init 1000 true) = Some s'
    ∧ storage s' = Some unauthenticated
    ∧ realtimeHandler s' = Some h2
    ∧ h1 ≠ h2
    ∧ h1 ∈ listeners s'
    ∧ h2 ∉ listeners s'.
Proof.
  apply (relogin_leaves_first_listener json defaultConfigValues
           (init 1000 true) 1 2 3 "admin@example.com" "secret" no_options
           issued reissued unauthenticated).
  reflexivity.
Defined.

End ReloginRuns.
